(** * PolyPasswordHasher-ECC: a shallow embedding of [polypasswordhasher.py]

    The class [PolyPasswordHasher] is modelled as a record of its instance
    attributes.  Account entries are Python dicts that are shared between
    [accountdict] and [bootstrap_accounts]; they live in a heap and are
    referred to by their address.  Methods run in a state-and-exception
    monad over the world (object, heap, standard output, entropy, files).

    SHA-256, AES, [os.urandom], [pickle] and the [reedsolomon] module are
    imported by the source, not defined by it: they are parameters of the
    development. *)

From Stdlib Require Import ZArith String DecimalString.
From stdpp Require Import base tactics option list gmap strings.

Local Open Scope string_scope.
Local Open Scope list_scope.

(** ** Byte strings and the Python operations used on them *)

(** A Python 2 [str] or [bytearray]: the list of its byte values 0..255. *)
Abbreviation bytes := (list Z) (only parsing).

Definition len {A} (s : list A) : Z := Z.of_nat (length s).

Definition bytes_eqb (a b : bytes) : bool := bool_decide (a = b).

(** Position of a slice bound [i] in a sequence of length [n]: a negative
    bound counts from the end, and the result is clamped to [0, n]. *)
Definition slice_index (n i : Z) : nat :=
  Z.to_nat (Z.min n (if (i <? 0)%Z then Z.max 0 (i + n) else i)).

(** [s[:j]] *)
Definition slice_to {A} (s : list A) (j : Z) : list A :=
  take (slice_index (len s) j) s.

(** [s[i:]] *)
Definition slice_from {A} (s : list A) (i : Z) : list A :=
  drop (slice_index (len s) i) s.

(** [range(a, b)] *)
Definition range (a b : Z) : list Z :=
  map (fun i => (a + Z.of_nat i)%Z) (seq 0 (Z.to_nat (b - a))).

(** [str(n)] for an integer *)
Definition str (n : Z) : string := NilZero.string_of_int (Z.to_int n).

(** Python 2 orders [None] below every integer: [max(None, x)] is [x]. *)
Definition py_max (a : option Z) (b : Z) : Z :=
  match a with
  | None => b
  | Some a => if (b >? a)%Z then b else a
  end.

(** ** Exceptions and output *)

Inductive exn :=
| ValueError (msg : string)
| AssertionError
| TypeError
| AttributeError
| UnboundLocalError
| IOError
| KeyError
| SystemError.

Inductive result (A : Type) :=
| Ok (a : A)
| Raise (e : exn).
Arguments Ok {A} a.
Arguments Raise {A} e.

(** What a [print] statement sends to standard output. *)
Inductive output :=
| Line (s : string)
| XorDump (la lb : Z) (a b : bytes).

(** ** Account entries *)

(** One entry of an account: the dict with keys ['sharenumber'], ['salt']
    and ['passhash'].  [unlock_password_data] stores under a fourth key,
    ['passshash'], which is absent ([None]) until then. *)
Record entry := Entry {
  sharenumber : Z;
  salt : bytes;
  passhash : bytes;
  passshash : option bytes
}.

(** References to entries are addresses in the heap. *)
Abbreviation ref := nat (only parsing).

Definition set_sharenumber (v : Z) (e : entry) : entry :=
  Entry v (salt e) (passhash e) (passshash e).

Definition set_passshash (v : bytes) (e : entry) : entry :=
  Entry (sharenumber e) (salt e) (passhash e) (Some v).

(** ** The imported modules *)

(** [hashlib.sha256], [Crypto.Cipher.AES], [os.urandom] and the
    [reedsolomon] module.  [os_urandom c n] is the [n]-byte answer to the
    [c]-th request made to the system's generator.  The constructor
    [reedsolomon.ReedSolomon(threshold[, secret])] may raise;
    [recover_secretdata] updates the object and may raise. *)
Class Primitives := {
  ReedSolomon : Type;
  sha256 : bytes -> bytes;
  AES_encrypt : bytes -> bytes -> bytes;
  os_urandom : nat -> Z -> bytes;
  ReedSolomon_new : Z -> option bytes -> result ReedSolomon;
  compute_share : ReedSolomon -> Z -> Z * bytes;
  is_valid_share : ReedSolomon -> Z * bytes -> bool;
  recover_secretdata : ReedSolomon -> list (Z * bytes) -> result unit * ReedSolomon;
  secretdata : ReedSolomon -> bytes
}.

(** ** The object

    The data of a store depends on the imported modules through the type
    of the share objects only. *)

Section Data.

Context {ReedSolomon : Type}.

(** The instance attributes.  [secret] records whether the attribute
    [self.secret] exists: [write_password_data] creates it (with value
    [None]) and nothing else reads or writes it. *)
Record PolyPasswordHasher := Build {
  threshold : Z;
  accountdict : gmap string (list ref);
  bootstrap_accounts : list ref;
  reedsolomonobj : option ReedSolomon;
  knownsecret : bool;
  secret_integrity_check : option bytes;
  isolated_check_bits : Z;
  shieldedkey : option bytes;
  nextavailableshare : option Z;
  secret : bool
}.

(** Class attributes that are never assigned on an instance. *)
Definition saltsize : Z := 16.
Definition icb_iterations : Z := 1000.
Definition recombination_iterations : Z := 100000.
Definition secret_length : Z := 32.

Definition set_accountdict v (s : PolyPasswordHasher) :=
  Build (threshold s) v (bootstrap_accounts s) (reedsolomonobj s) (knownsecret s)
    (secret_integrity_check s) (isolated_check_bits s) (shieldedkey s)
    (nextavailableshare s) (secret s).
Definition set_bootstrap_accounts v (s : PolyPasswordHasher) :=
  Build (threshold s) (accountdict s) v (reedsolomonobj s) (knownsecret s)
    (secret_integrity_check s) (isolated_check_bits s) (shieldedkey s)
    (nextavailableshare s) (secret s).
Definition set_reedsolomonobj v (s : PolyPasswordHasher) :=
  Build (threshold s) (accountdict s) (bootstrap_accounts s) v (knownsecret s)
    (secret_integrity_check s) (isolated_check_bits s) (shieldedkey s)
    (nextavailableshare s) (secret s).
Definition set_knownsecret v (s : PolyPasswordHasher) :=
  Build (threshold s) (accountdict s) (bootstrap_accounts s) (reedsolomonobj s) v
    (secret_integrity_check s) (isolated_check_bits s) (shieldedkey s)
    (nextavailableshare s) (secret s).
Definition set_secret_integrity_check v (s : PolyPasswordHasher) :=
  Build (threshold s) (accountdict s) (bootstrap_accounts s) (reedsolomonobj s)
    (knownsecret s) v (isolated_check_bits s) (shieldedkey s)
    (nextavailableshare s) (secret s).
Definition set_shieldedkey v (s : PolyPasswordHasher) :=
  Build (threshold s) (accountdict s) (bootstrap_accounts s) (reedsolomonobj s)
    (knownsecret s) (secret_integrity_check s) (isolated_check_bits s) v
    (nextavailableshare s) (secret s).
Definition set_nextavailableshare v (s : PolyPasswordHasher) :=
  Build (threshold s) (accountdict s) (bootstrap_accounts s) (reedsolomonobj s)
    (knownsecret s) (secret_integrity_check s) (isolated_check_bits s)
    (shieldedkey s) v (secret s).
Definition set_secret v (s : PolyPasswordHasher) :=
  Build (threshold s) (accountdict s) (bootstrap_accounts s) (reedsolomonobj s)
    (knownsecret s) (secret_integrity_check s) (isolated_check_bits s)
    (shieldedkey s) (nextavailableshare s) v.

(** What [pickle.dumps(self)] serializes: the instance attributes and the
    entries they refer to. *)
Definition pickled : Type := PolyPasswordHasher * list entry.

(** ** The world and the monad of methods *)

Record world := World {
  self : PolyPasswordHasher;
  heap : list entry;
  stdout : list output;
  urandom_calls : nat;
  files : gmap string pickled
}.

End Data.

Section PolyPasswordHasher.

Context `{P : Primitives}.

#[local] Abbreviation PolyPasswordHasher :=
  (@PolyPasswordHasher ReedSolomon) (only parsing).
#[local] Abbreviation pickled := (@pickled ReedSolomon) (only parsing).
#[local] Abbreviation world := (@world ReedSolomon) (only parsing).

Definition M (A : Type) : Type := world -> result A * world.

Definition ret {A} (a : A) : M A := fun w => (Ok a, w).

Definition raise {A} (e : exn) : M A := fun w => (Raise e, w).

Definition bind {A B} (c : M A) (k : A -> M B) : M B :=
  fun w => match c w with
           | (Ok a, w') => k a w'
           | (Raise e, w') => (Raise e, w')
           end.

Notation "x <- c ;; k" := (bind c (fun x => k))
  (at level 20, c at level 99, k at level 200, only parsing).
Notation "c ;; k" := (bind c (fun _ => k))
  (at level 100, k at level 200, only parsing).

Definition get_self : M PolyPasswordHasher := fun w => (Ok (self w), w).

Definition modify_self (f : PolyPasswordHasher -> PolyPasswordHasher) : M unit :=
  fun w => (Ok tt, World (f (self w)) (heap w) (stdout w) (urandom_calls w) (files w)).

Definition print (o : output) : M unit :=
  fun w => (Ok tt, World (self w) (heap w) (stdout w ++ [o]) (urandom_calls w) (files w)).

Definition urandom (n : Z) : M bytes :=
  fun w => (Ok (os_urandom (urandom_calls w) n),
            World (self w) (heap w) (stdout w) (S (urandom_calls w)) (files w)).

(** A new dict object. *)
Definition alloc (e : entry) : M ref :=
  fun w => (Ok (length (heap w)),
            World (self w) (heap w ++ [e]) (stdout w) (urandom_calls w) (files w)).

(** Reading and updating the dict behind a reference.  A reference held by
    the object always points into the heap; [SystemError] marks a world
    where it does not. *)
Definition deref (r : ref) : M entry :=
  fun w => match heap w !! r with
           | Some e => (Ok e, w)
           | None => (Raise SystemError, w)
           end.

Definition update (r : ref) (f : entry -> entry) : M unit :=
  fun w => match heap w !! r with
           | Some e => (Ok tt, World (self w) (<[r := f e]> (heap w)) (stdout w)
                                (urandom_calls w) (files w))
           | None => (Raise SystemError, w)
           end.

Definition write_file (path : string) (data : pickled) : M unit :=
  fun w => (Ok tt, World (self w) (heap w) (stdout w) (urandom_calls w)
                     (<[path := data]> (files w))).

(** [AES.new(key).encrypt(data)] *)
Definition AES_new_encrypt (key : option bytes) (data : bytes) : M bytes :=
  match key with
  | Some k => ret (AES_encrypt k data)
  | None => raise TypeError
  end.

(** A method call on [self.reedsolomonobj]. *)
Definition the_reedsolomonobj : M ReedSolomon :=
  s <- get_self ;;
  match reedsolomonobj s with
  | Some rs => ret rs
  | None => raise AttributeError
  end.

(** ** Private helper [_do_bytearray_XOR] *)

Definition _do_bytearray_XOR (a b : bytes) : M bytes :=
  (if bool_decide (len a = len b) then ret tt
   else print (XorDump (len a) (len b) a b) ;; raise AssertionError) ;;
  ret (zip_with Z.lxor a b).

(** ** Isolated validation and the secret's integrity check *)

(** [for i in range(1, n): x = sha256(x).digest()] *)
Definition sha256_loop (n : Z) (x : bytes) : bytes := Z.iter (n - 1) sha256 x.

Definition create_isolated_validation_bits (s : PolyPasswordHasher) (passhash : bytes) : bytes :=
  let icbs := isolated_check_bits s in
  let passhash := sha256_loop icb_iterations passhash in
  slice_from passhash (len passhash - icbs).

Definition isolated_validation (s : PolyPasswordHasher) (passhash stored_hash : bytes) : bool :=
  let passhash_icb := create_isolated_validation_bits s passhash in
  let local_icb := slice_from stored_hash (len stored_hash - isolated_check_bits s) in
  bytes_eqb passhash_icb local_icb.

Definition verify_secret (s : PolyPasswordHasher) (secret : bytes) : bool :=
  let secret_digest := sha256 secret in
  let secret_digest := sha256_loop recombination_iterations secret_digest in
  bool_decide (Some secret_digest = secret_integrity_check s).

Definition create_secret : M bytes :=
  secret <- urandom secret_length ;;
  let secret_digest := sha256 secret in
  let secret_digest := sha256_loop recombination_iterations secret_digest in
  modify_self (set_secret_integrity_check (Some secret_digest)) ;;
  ret secret.

(** ** [__init__] *)

(** The attributes of the class itself, before [__init__] has run. *)
Definition blank : PolyPasswordHasher :=
  Build 0 ∅ [] None false None 0 None None false.

(** [while True:] draw a secret and build the share object, again on
    [TypeError].  [None] when [fuel] rounds were not enough. *)
Fixpoint new_secret_loop (fuel : nat) (threshold : Z) (w : world)
  : option (result unit * world) :=
  match fuel with
  | O => None
  | S fuel =>
      match (key <- create_secret ;;
             modify_self (set_shieldedkey (Some key)) ;;
             ret key) w with
      | (Raise e, w') => Some (Raise e, w')
      | (Ok key, w') =>
          match ReedSolomon_new threshold (Some key) with
          | Ok rs => Some (modify_self (set_reedsolomonobj (Some rs)) w')
          | Raise TypeError => new_secret_loop fuel threshold w'
          | Raise e => Some (Raise e, w')
          end
      end
  end.

(** The objects that [pickle.load] has built become the heap. *)
Definition unpickle (passwordfile : string) : M PolyPasswordHasher :=
  fun w => match files w !! passwordfile with
           | None => (Raise IOError, w)
           | Some (data, h) =>
               (Ok data, World (self w) h (stdout w) (urandom_calls w) (files w))
           end.

(** [for share in self.accountdict[username]:] of [__init__] *)
Fixpoint init_shares (shares : list ref) : M unit :=
  match shares with
  | [] => ret tt
  | r :: shares =>
      share <- deref r ;;
      modify_self (fun s => set_nextavailableshare
        (Some (py_max (nextavailableshare s) (sharenumber share))) s) ;;
      init_shares shares
  end.

(** [for username in self.accountdict:] of [__init__] *)
Fixpoint init_users (users : list (string * list ref)) : M unit :=
  match users with
  | [] => ret tt
  | (_, shares) :: users => init_shares shares ;; init_users users
  end.

Definition init_load (threshold : Z) (passwordfile : string) : M unit :=
  match ReedSolomon_new threshold None with
  | Raise e => raise e
  | Ok rs =>
      modify_self (set_reedsolomonobj (Some rs)) ;;
      modify_self (set_knownsecret false) ;;
      modify_self (set_shieldedkey None) ;;
      passwordfiledata <- unpickle passwordfile ;;
      modify_self (set_accountdict (accountdict passwordfiledata)) ;;
      modify_self (set_secret_integrity_check (secret_integrity_check passwordfiledata)) ;;
      s <- get_self ;;
      init_users (map_to_list (accountdict s)) ;;
      s <- get_self ;;
      match nextavailableshare s with
      | None => raise TypeError
      | Some n => modify_self (set_nextavailableshare (Some (n + n)%Z))
      end
  end.

Definition __init__ (fuel : nat) (threshold : Z) (passwordfile : option string)
    (isolated_check_bits : Z) (w : world) : option (result unit * world) :=
  let w := World (Build threshold ∅ [] (reedsolomonobj (self w)) (knownsecret (self w))
                    (secret_integrity_check (self w)) isolated_check_bits
                    (shieldedkey (self w)) (nextavailableshare (self w)) (secret (self w)))
             (heap w) (stdout w) (urandom_calls w) (files w) in
  match passwordfile with
  | None =>
      match new_secret_loop fuel threshold w with
      | Some (Ok _, w') =>
          Some ((modify_self (set_knownsecret true) ;;
                 modify_self (set_nextavailableshare (Some 1%Z))) w')
      | r => r
      end
  | Some passwordfile => Some (init_load threshold passwordfile w)
  end.

(** [PolyPasswordHasher(threshold, passwordfile, isolated_check_bits)] in
    a process that has printed [out], asked for randomness [calls] times
    and sees the files [fs]. *)
Definition new (fuel : nat) (threshold : Z) (passwordfile : option string)
    (isolated_check_bits : Z) (out : list output) (calls : nat)
    (fs : gmap string pickled) : option (result unit * world) :=
  __init__ fuel threshold passwordfile isolated_check_bits
    (World blank [] out calls fs).

(** ** [create_account] *)

(** [self.accountdict[username].append(thisentry)] *)
Definition append_entry (username : string) (r : ref) : M unit :=
  s <- get_self ;;
  match accountdict s !! username with
  | Some l => modify_self (set_accountdict (<[username := l ++ [r]]> (accountdict s)))
  | None => raise KeyError
  end.

(** The body of [for sharenumber in range(...)] *)
Fixpoint create_shares (username : string) (password : bytes) (sharenumbers : list Z)
  : M unit :=
  match sharenumbers with
  | [] => ret tt
  | sharenumber :: sharenumbers =>
      rs <- the_reedsolomonobj ;;
      let reedsolomondata := snd (compute_share rs sharenumber) in
      salt <- urandom saltsize ;;
      let saltedpasswordhash := sha256 (salt ++ password) in
      x <- _do_bytearray_XOR saltedpasswordhash reedsolomondata ;;
      s <- get_self ;;
      let passhash := x ++ create_isolated_validation_bits s saltedpasswordhash in
      thisentry <- alloc (Entry sharenumber salt passhash None) ;;
      append_entry username thisentry ;;
      create_shares username password sharenumbers
  end.

Definition create_account (username : string) (password : bytes) (shares : Z) : M unit :=
  s <- get_self ;;
  if bool_decide (is_Some (accountdict s !! username)) then
    raise (ValueError "Username exists already!")
  else if ((shares >? 255) || (shares <? 0))%Z then
    raise (ValueError ("Invalid number of shares: " +:+ str shares +:+ "."))
  else
  match nextavailableshare s with
  | None => raise TypeError
  | Some next =>
  if (shares + next >? 255)%Z then
    raise (ValueError ("Would exceed maximum number of shares: " +:+ str shares +:+ "."))
  else
  modify_self (fun s => set_accountdict (<[username := []]> (accountdict s)) s) ;;
  returned <-
    (if negb (knownsecret s) then
       if negb (shares =? 0)%Z then
         modify_self (fun s => set_accountdict (delete username (accountdict s)) s) ;;
         raise (ValueError "Cannot produce shares, still bootstrapping!")
       else
         salt <- urandom saltsize ;;
         let saltedpasswordhash := sha256 (salt ++ password) in
         thisentry <- alloc (Entry (-1) salt saltedpasswordhash None) ;;
         append_entry username thisentry ;;
         modify_self (fun s => set_bootstrap_accounts (bootstrap_accounts s ++ [thisentry]) s) ;;
         ret false
     else if (shares =? 0)%Z then
       salt <- urandom saltsize ;;
       let saltedpasswordhash := sha256 (salt ++ password) in
       c <- AES_new_encrypt (shieldedkey s) saltedpasswordhash ;;
       let passhash := c ++ create_isolated_validation_bits s saltedpasswordhash in
       thisentry <- alloc (Entry 0 salt passhash None) ;;
       append_entry username thisentry ;;
       ret true
     else ret false) ;;
  if returned : bool then ret tt else
  create_shares username password (range next (next + shares)) ;;
  modify_self (fun s => set_nextavailableshare
                 (option_map (fun n => (n + shares)%Z) (nextavailableshare s)) s)
  end.

(** ** [is_valid_login] *)

Definition StillBootstrapping : exn :=
  ValueError "Still bootstrapping and isolated validation is disabled!".

Definition UnknownUser (username : string) : exn :=
  ValueError ("Unknown user '" +:+ username +:+ "'").

Definition break_in : output :=
  Line "Isolated check matches but full hash doesn't, this might be a break-in!".

(** [for entry in self.accountdict[username]:].  Every path through the
    body of the loop ends in a [return], so the first entry decides; when
    the user has no entry the method runs off its end and returns
    [None]. *)
Definition login_entries (password : bytes) (entries : list ref)
    : M (option bool) :=
  match entries with
  | [] => ret None
  | r :: _ =>
      entry <- deref r ;;
      s <- get_self ;;
      let saltedpasswordhash := sha256 (salt entry ++ password) in
      if (sharenumber entry =? -1)%Z then
        ret (Some (bytes_eqb saltedpasswordhash (passhash entry)))
      else if negb (knownsecret s) then
        if isolated_validation s saltedpasswordhash (passhash entry)
        then ret (Some true) else ret (Some false)
      else
        let core := slice_to (passhash entry)
                      (len (passhash entry) - isolated_check_bits s) in
        sharedata <- _do_bytearray_XOR saltedpasswordhash core ;;
        let isolated_check :=
          if (isolated_check_bits s >? 0)%Z
          then isolated_validation s saltedpasswordhash (passhash entry)
          else false in
        if (sharenumber entry =? 0)%Z then
          c <- AES_new_encrypt (shieldedkey s) saltedpasswordhash ;;
          if bytes_eqb c core then ret (Some true)
          else
            (if isolated_check then print break_in else ret tt) ;;
            ret (Some false)
        else
          rs <- the_reedsolomonobj ;;
          let share := (sharenumber entry, sharedata) in
          if is_valid_share rs share then ret (Some true)
          else
            (if isolated_check then print break_in else ret tt) ;;
            ret (Some false)
  end.

Definition is_valid_login (username : string) (password : bytes)
    : M (option bool) :=
  s <- get_self ;;
  if negb (knownsecret s) && (isolated_check_bits s =? 0)%Z then
    raise StillBootstrapping
  else
  match accountdict s !! username with
  | None => raise (UnknownUser username)
  | Some entries => login_entries password entries
  end.

(** ** [write_password_data] *)

Definition write_password_data (passwordfile : string) : M unit :=
  s <- get_self ;;
  if match nextavailableshare s with
     | None => true
     | Some n => (threshold s >=? n)%Z
     end
  then raise (ValueError
    "Would write undecodable password file.   Must have more shares before writing.")
  else
  let secret_backup := knownsecret s in
  let shieldedkey_backup := shieldedkey s in
  let reedsolomonobj_backup := reedsolomonobj s in
  modify_self (set_secret true) ;;
  modify_self (set_shieldedkey None) ;;
  modify_self (set_reedsolomonobj None) ;;
  (fun w => write_file passwordfile (self w, heap w) w) ;;
  modify_self (set_knownsecret secret_backup) ;;
  modify_self (set_shieldedkey shieldedkey_backup) ;;
  modify_self (set_reedsolomonobj reedsolomonobj_backup).

(** ** [unlock_password_data] *)

(** [for entry in self.accountdict[username]:] of [unlock_password_data] *)
Fixpoint unlock_entries (password : bytes) (entries : list ref)
    (sharelist : list (Z * bytes)) : M (list (Z * bytes)) :=
  match entries with
  | [] => ret sharelist
  | r :: entries =>
      entry <- deref r ;;
      if (sharenumber entry =? 0)%Z then unlock_entries password entries sharelist
      else
        s <- get_self ;;
        let thissaltedpasswordhash := sha256 (salt entry ++ password) in
        x <- _do_bytearray_XOR thissaltedpasswordhash
               (slice_to (passhash entry)
                  (len (passhash entry) - isolated_check_bits s)) ;;
        let thisshare := (sharenumber entry, x) in
        unlock_entries password entries (sharelist ++ [thisshare])
  end.

(** [for (username, password) in logindata:] *)
Fixpoint unlock_logins (logindata : list (string * bytes))
    (sharelist : list (Z * bytes)) : M (list (Z * bytes)) :=
  match logindata with
  | [] => ret sharelist
  | (username, password) :: logindata =>
      s <- get_self ;;
      match accountdict s !! username with
      | None => raise (UnknownUser username)
      | Some entries =>
          sharelist <- unlock_entries password entries sharelist ;;
          unlock_logins logindata sharelist
      end
  end.

(** [for entry in self.bootstrap_accounts:] *)
Fixpoint unlock_bootstrap (entries : list ref) : M unit :=
  match entries with
  | [] => ret tt
  | r :: entries =>
      entry <- deref r ;;
      s <- get_self ;;
      c <- AES_new_encrypt (shieldedkey s) (passhash entry) ;;
      update r (set_passshash c) ;;
      update r (set_sharenumber 0) ;;
      unlock_bootstrap entries
  end.

(** [self.reedsolomonobj.recover_secretdata(sharelist)] *)
Definition recover (sharelist : list (Z * bytes)) : M unit :=
  rs <- the_reedsolomonobj ;;
  let (r, rs') := recover_secretdata rs sharelist in
  modify_self (set_reedsolomonobj (Some rs')) ;;
  match r with
  | Ok _ => ret tt
  | Raise e => raise e
  end.

Definition unlock_password_data (logindata : list (string * bytes)) : M unit :=
  s <- get_self ;;
  if knownsecret s then raise (ValueError "PPH is already in normal operation!") else
  sharelist <- unlock_logins logindata [] ;;
  recover sharelist ;;
  rs <- the_reedsolomonobj ;;
  s <- get_self ;;
  if negb (verify_secret s (secretdata rs)) then
    raise (ValueError
      "This is not a valid secret recombination, wrong account information provided")
  else
  modify_self (set_shieldedkey (Some (secretdata rs))) ;;
  s <- get_self ;;
  unlock_bootstrap (bootstrap_accounts s) ;;
  modify_self (set_bootstrap_accounts []) ;;
  modify_self (set_knownsecret true).

(** ** Vocabulary of the properties *)

(** Two worlds that differ at most in what has been printed. *)
Definition only_prints (w w' : world) : Prop :=
  self w' = self w /\ heap w' = heap w /\
  urandom_calls w' = urandom_calls w /\ files w' = files w.

(** A computation that is read-only on the object and its entries. *)
Definition reads {A} (c : M A) : Prop := forall w, only_prints w (snd (c w)).

(** The references held by the object point to existing dicts. *)
Definition valid_refs (h : list entry) (refs : list ref) : Prop :=
  Forall (fun r => r < length h) refs.

(** The share numbers of a list of entries. *)
Definition sharenumbers_of (h : list entry) (refs : list ref) : list Z :=
  omap (fun r => sharenumber <$> h !! r) refs.

(** The share numbers of all entries of an account dict, in the order in
    which [__init__] visits them. *)
Definition all_sharenumbers (accounts : gmap string (list ref)) (h : list entry)
  : list Z :=
  concat (map (fun u => sharenumbers_of h (snd u)) (map_to_list accounts)).

(** [self.nextavailableshare = max(self.nextavailableshare, x)] for each
    [x] of a list. *)
Definition fold_max (o : option Z) (l : list Z) : option Z :=
  foldl (fun o x => Some (py_max o x)) o l.

(** The decision [is_valid_login] takes on one entry: the comparison of a
    bootstrap entry, the isolated validation of a locked store, the
    encryption of a shielded entry, the share check of a protector
    entry. *)
Definition entry_validates (s : PolyPasswordHasher) (entry : entry)
    (password : bytes) : bool :=
  let saltedpasswordhash := sha256 (salt entry ++ password) in
  if (sharenumber entry =? -1)%Z then
    bytes_eqb saltedpasswordhash (passhash entry)
  else if negb (knownsecret s) then
    isolated_validation s saltedpasswordhash (passhash entry)
  else
    let core := slice_to (passhash entry)
                  (len (passhash entry) - isolated_check_bits s) in
    bool_decide (len saltedpasswordhash = len core) &&
    if (sharenumber entry =? 0)%Z then
      match shieldedkey s with
      | Some key => bytes_eqb (AES_encrypt key saltedpasswordhash) core
      | None => false
      end
    else
      match reedsolomonobj s with
      | Some rs => is_valid_share rs (sharenumber entry,
                                      zip_with Z.lxor saltedpasswordhash core)
      | None => false
      end.

(** The candidate share that [unlock_password_data] builds from an entry
    and a submitted password. *)
Definition candidate_share (s : PolyPasswordHasher) (entry : entry)
    (password : bytes) : Z * bytes :=
  (sharenumber entry,
   zip_with Z.lxor (sha256 (salt entry ++ password))
     (slice_to (passhash entry) (len (passhash entry) - isolated_check_bits s))).

(** The candidate shares of a list of entries: one for every entry whose
    share number is not 0. *)
Definition candidate_shares (s : PolyPasswordHasher) (h : list entry)
    (password : bytes) (entries : list ref) : list (Z * bytes) :=
  omap (fun r => match h !! r with
                 | Some entry =>
                     if (sharenumber entry =? 0)%Z then None
                     else Some (candidate_share s entry password)
                 | None => None
                 end) entries.

(** The part of a stored hash that [is_valid_login] XORs or compares:
    the stored hash without its isolated-check suffix. *)
Definition core_of (s : PolyPasswordHasher) (entry : entry) : bytes :=
  slice_to (passhash entry) (len (passhash entry) - isolated_check_bits s).

(** An entry on which [is_valid_login] reaches a verdict: a bootstrap
    entry, any entry of a locked store, or an entry whose stored hash has
    32 bytes before the suffix in a store that holds what the entry
    needs, the key for a shielded entry and the share object for a
    protector entry. *)
Definition entry_ready (s : PolyPasswordHasher) (h : list entry) (r : ref) : Prop :=
  exists entry, h !! r = Some entry /\
    (sharenumber entry = (-1)%Z \/ knownsecret s = false \/
     (length (core_of s entry) = 32 /\
      if (sharenumber entry =? 0)%Z then is_Some (shieldedkey s)
      else is_Some (reedsolomonobj s))).

(** A protector entry whose share is well-formed but does not check
    against the share object. *)
Definition share_fails (s : PolyPasswordHasher) (rs : ReedSolomon)
    (h : list entry) (password : bytes) (r : ref) : Prop :=
  exists entry, h !! r = Some entry /\
    sharenumber entry <> (-1)%Z /\ sharenumber entry <> 0%Z /\
    len (sha256 (salt entry ++ password)) = len (core_of s entry) /\
    is_valid_share rs (candidate_share s entry password) = false.

(** Share numbers are handed out once: every entry carries a share number
    below the next available one, and no positive share number occurs
    twice. *)
Definition share_numbers_fresh (w : world) : Prop :=
  exists n, nextavailableshare (self w) = Some n /\ (1 <= n)%Z /\
    Forall (fun x => (x < n)%Z) (map sharenumber (heap w)) /\
    NoDup (filter (fun x => (0 < x)%Z) (map sharenumber (heap w))).

End PolyPasswordHasher.

(** ** An executable instance of the imported modules

    Small stand-ins with the shapes of the real primitives (32-byte
    digests, length-preserving encryption, shares that check against the
    secret they were computed from), on which the methods can be run. *)
Module Sim.

Definition mix (x : bytes) : Z :=
  fold_left (fun acc b => Z.land (acc + acc + acc + b + 1) 1048575)%Z x 7%Z.

Definition odds : list Z :=
  Eval vm_compute in map (fun i => (2 * Z.of_nat i + 3)%Z) (seq 0 32).

Definition stretch (x : bytes) : bytes :=
  let m := mix x in map (fun i => Z.land (Z.shiftr (m * i) 3) 255) odds.

(** A 32-byte input is turned by one position, any other is stretched
    to 32 bytes; the iterated digests of the methods stay cheap to run. *)
Definition sha256 (x : bytes) : bytes :=
  match x with
  | a :: c :: rest =>
      if Nat.eqb (length rest) 30 then c :: rest ++ [Z.land (a + c + 1) 255]
      else stretch x
  | _ => stretch x
  end.

Definition AES_encrypt (key data : bytes) : bytes :=
  imap (fun i b => ((b + default 0 (key !! i) + 1) mod 256)%Z) data.

Definition os_urandom (c : nat) (n : Z) : bytes :=
  map (fun i => ((Z.of_nat c * 37 + i * 11 + 5) mod 256)%Z) (range 0 n).

(** The stand-in share object: the threshold and the secret itself. *)
Record share_object := RS { k : Z; secretdata : bytes }.

Definition ReedSolomon_new (threshold : Z) (secret : option bytes) : result share_object :=
  Ok (RS threshold (default [] secret)).

Definition compute_share (rs : share_object) (x : Z) : Z * bytes :=
  (x, map (fun b => ((b + x) mod 256)%Z) (secretdata rs)).

Definition is_valid_share (rs : share_object) (share : Z * bytes) : bool :=
  bool_decide (snd share = snd (compute_share rs (fst share))).

Definition recover_secretdata (rs : share_object) (shares : list (Z * bytes))
  : result unit * share_object :=
  if (len shares <? k rs)%Z then (Raise (ValueError "not enough shares"), rs)
  else match shares with
       | (x, d) :: _ => (Ok tt, RS (k rs) (map (fun b => ((b - x) mod 256)%Z) d))
       | [] => (Raise (ValueError "not enough shares"), rs)
       end.

#[global] Instance primitives : Primitives :=
  Build_Primitives share_object sha256 AES_encrypt os_urandom ReedSolomon_new
    compute_share is_valid_share recover_secretdata secretdata.

(** The stores and worlds of this instance. *)
Abbreviation world := (@world (@ReedSolomon primitives)) (only parsing).
Abbreviation pickled := (@pickled (@ReedSolomon primitives)) (only parsing).

(** The bytes of an ASCII string. *)
Definition b (s : string) : bytes :=
  map (fun c => Z.of_nat (Ascii.nat_of_ascii c)) (list_ascii_of_string s).

(** Running one method after another, stopping at the first exception. *)
Definition run {A} (c : M A) (w : option (result unit * world))
  : option (result A * world) :=
  match w with
  | Some (Ok _, w) => Some (c w)
  | Some (Raise e, w) => Some (Raise e, w)
  | None => None
  end.

Definition world_of (o : option (result unit * world)) : world :=
  match o with
  | Some (_, w) => w
  | None => World blank [] [] 0 ∅
  end.

(** *** The scenario of the test program, threshold 3, no isolated check *)

(** A new store with five single-share accounts and a shielded one. *)
Definition unlocked_world : world :=
  Eval vm_compute in world_of
    (run (create_account "eve" (b "iamevil") 0)
    (run (create_account "gone" (b "girl") 1)
    (run (create_account "dennis" (b "menace") 1)
    (run (create_account "charlie" (b "velociraptor") 1)
    (run (create_account "bob" (b "puppy") 1)
    (run (create_account "alice" (b "kitten") 1)
       (new 5 3 None 0 [] 0 ∅))))))).

(** The files after [write_password_data('securepasswords')]. *)
Definition disk : gmap string pickled :=
  Eval vm_compute in
    files (snd (write_password_data "securepasswords" unlocked_world)).

(** The store loaded from that file. *)
Definition locked_world : world :=
  Eval vm_compute in world_of (new 0 3 (Some "securepasswords") 0 [] 0 disk).

(** ... after [create_account('bootstrapper', 'password', 0)]. *)
Definition bootstrapping_world : world :=
  Eval vm_compute in
    snd (create_account "bootstrapper" (b "password") 0 locked_world).

Definition logindata : list (string * list Z) :=
  [("alice", b "kitten"); ("bob", b "puppy"); ("charlie", b "velociraptor")].

(** *** A store with isolated validation: threshold 2, one check byte *)

Definition icb_unlocked_world : world :=
  Eval vm_compute in world_of
    (run (create_account "alice" (b "kitten") 1)
    (run (create_account "admin" (b "correct horse") 2)
       (new 5 2 None 1 [] 0 ∅))).

Definition icb_disk : gmap string pickled :=
  Eval vm_compute in
    files (snd (write_password_data "securepasswords" icb_unlocked_world)).

Definition icb_locked_world : world :=
  Eval vm_compute in
    world_of (new 0 2 (Some "securepasswords") 1 [] 0 icb_disk).

(** ... after a bootstrap account has been created and the store has been
    unlocked with the password of [admin]. *)
Definition icb_reunlocked_world : world :=
  Eval vm_compute in world_of
    (run (unlock_password_data [("admin", b "correct horse")])
    (run (create_account "bootstrapper" (b "password") 0)
       (Some (Ok tt, icb_locked_world)))).

(** ... and after [unlock_password_data] with three right passwords. *)
Definition reunlocked_world : world :=
  Eval vm_compute in snd (unlock_password_data logindata bootstrapping_world).

(** The unlocked store with isolated validation in which the stored hash
    of the first share of [admin] has been overwritten with zeros. *)
Definition tampered_world : world :=
  Eval vm_compute in
    World (self icb_unlocked_world)
      (alter (fun e => Entry (sharenumber e) (salt e) (replicate 33 0%Z) None) 0
         (heap icb_unlocked_world))
      [] 3 ∅.

(** The entry of the bootstrap account of [bootstrapping_world]. *)
Definition bootstrap_entry : entry :=
  Eval vm_compute in
    default (Entry 0 [] [] None) (heap bootstrapping_world !! 6).

(** Three submissions of which the first has a wrong password. *)
Definition wrong_logindata : list (string * list Z) :=
  [("alice", b "nyancat!"); ("bob", b "puppy"); ("charlie", b "velociraptor")].

(** A wrong password for [admin] whose isolated check passes on the
    first share of the account. *)
Definition false_alarm : list Z := b "guess37".

(** *** Further stores *)



(** The file written by a new store of threshold 0 that holds no
    account. *)
Definition empty_disk : gmap string pickled :=
  Eval vm_compute in
    files (snd (write_password_data "empty" (world_of (new 5 0 None 0 [] 0 ∅)))).

(** The store with isolated validation when only [admin] had an
    account. *)
Definition icb_admin_world : world :=
  Eval vm_compute in world_of
    (run (create_account "admin" (b "correct horse") 2)
       (new 5 2 None 1 [] 0 ∅)).

(** Submissions that start with a shielded account. *)
Definition shielded_first_logindata : list (string * list Z) :=
  [("eve", b "iamevil"); ("alice", b "kitten"); ("bob", b "puppy")].

(** A share module whose constructor refuses, with [TypeError], the
    secrets that start with the byte 5. *)
Definition picky_ReedSolomon_new (threshold : Z) (secret : option bytes)
  : result share_object :=
  match secret with
  | Some (5%Z :: _) => Raise TypeError
  | _ => ReedSolomon_new threshold secret
  end.

Definition picky : Primitives :=
  Build_Primitives share_object sha256 AES_encrypt os_urandom
    picky_ReedSolomon_new compute_share is_valid_share recover_secretdata
    secretdata.

End Sim.

(** * Properties *)

Section Properties.

Context `{P : Primitives}.

#[local] Abbreviation PolyPasswordHasher :=
  (@PolyPasswordHasher ReedSolomon) (only parsing).
#[local] Abbreviation world := (@world ReedSolomon) (only parsing).

(** ** Reasoning about the monad *)

Lemma bind_Ok {A B} (c : M A) (k : A -> M B) w b w' :
  bind c k w = (Ok b, w') ->
  exists a w1, c w = (Ok a, w1) /\ k a w1 = (Ok b, w').
Proof.
  unfold bind. destruct (c w) as [[a|e] w1]; intros H; [eauto | discriminate].
Qed.

Lemma bind_Raise {A B} (c : M A) (k : A -> M B) w e w' :
  bind c k w = (Raise e, w') ->
  c w = (Raise e, w') \/ exists a w1, c w = (Ok a, w1) /\ k a w1 = (Raise e, w').
Proof.
  unfold bind. destruct (c w) as [[a|e1] w1]; intros H; [eauto | left; congruence].
Qed.

Lemma only_prints_refl w : only_prints w w.
Proof. by unfold only_prints. Qed.

Lemma only_prints_trans w1 w2 w3 :
  only_prints w1 w2 -> only_prints w2 w3 -> only_prints w1 w3.
Proof. unfold only_prints. intros (-> & -> & -> & ->) (-> & -> & -> & ->). done. Qed.

Lemma reads_ret {A} (a : A) : reads (ret a).
Proof. intros w. apply only_prints_refl. Qed.

Lemma reads_raise {A} e : reads (@raise _ A e).
Proof. intros w. apply only_prints_refl. Qed.

Lemma reads_bind {A B} (c : M A) (k : A -> M B) :
  reads c -> (forall a, reads (k a)) -> reads (bind c k).
Proof.
  intros Hc Hk w. unfold bind. specialize (Hc w).
  destruct (c w) as [[a|e] w1]; simpl in *; [|done].
  eapply only_prints_trans; [exact Hc | apply Hk].
Qed.

Lemma reads_get_self : reads get_self.
Proof. intros w. apply only_prints_refl. Qed.

Lemma reads_print o : reads (print o).
Proof. intros w. by unfold only_prints. Qed.

Lemma reads_deref r : reads (deref r).
Proof. intros w. unfold deref. destruct (heap w !! r); apply only_prints_refl. Qed.

Lemma reads_AES_new_encrypt key data : reads (AES_new_encrypt key data).
Proof. destruct key; [apply reads_ret | apply reads_raise]. Qed.

Lemma reads_the_reedsolomonobj : reads the_reedsolomonobj.
Proof.
  apply reads_bind; [apply reads_get_self|]. intros s.
  destruct (reedsolomonobj s); [apply reads_ret | apply reads_raise].
Qed.

Lemma reads_do_bytearray_XOR a b : reads (_do_bytearray_XOR a b).
Proof.
  apply reads_bind; [|intros; apply reads_ret].
  case_bool_decide; [apply reads_ret|].
  apply reads_bind; [apply reads_print | intros; apply reads_raise].
Qed.

Create HintDb reads.
#[local] Hint Resolve reads_ret reads_raise reads_get_self reads_print reads_deref
  reads_AES_new_encrypt reads_the_reedsolomonobj reads_do_bytearray_XOR : reads.

Ltac reads_step :=
  match goal with
  | |- reads (bind _ _) => apply reads_bind; [|intros ?]
  | |- reads (if ?c then _ else _) => destruct c
  | |- reads (match ?c with _ => _ end) => destruct c
  | |- _ => solve [auto with reads]
  end.

Lemma reads_login_entries password entries :
  reads (login_entries password entries).
Proof. destruct entries as [|r entries]; simpl; repeat reads_step. Qed.

Lemma reads_is_valid_login username password :
  reads (is_valid_login username password).
Proof.
  unfold is_valid_login. repeat reads_step. apply reads_login_entries.
Qed.

(** C10: [is_valid_login] is read-only.  Whatever it returns or raises,
    the account map and the entries it refers to, the bootstrap ledger,
    the known-secret flag, the shielded key, the next available share and
    the integrity fingerprint are what they were before the call (only the
    standard output may have grown). *)
Theorem is_valid_login_read_only username password w :
  let w' := snd (is_valid_login username password w) in
  accountdict (self w') = accountdict (self w) /\
  heap w' = heap w /\
  bootstrap_accounts (self w') = bootstrap_accounts (self w) /\
  knownsecret (self w') = knownsecret (self w) /\
  shieldedkey (self w') = shieldedkey (self w) /\
  nextavailableshare (self w') = nextavailableshare (self w) /\
  secret_integrity_check (self w') = secret_integrity_check (self w).
Proof.
  destruct (reads_is_valid_login username password w) as (Hs & Hh & _).
  simpl. rewrite Hs, Hh. done.
Qed.

(** ** Isolated validation bits *)

Lemma Z_iter_succ {A} (f : A -> A) (x : A) (n : Z) :
  (0 <= n)%Z -> Z.iter (Z.succ n) f x = f (Z.iter n f x).
Proof.
  destruct n as [|p|p]; intros Hn; simpl; [done | | lia].
  rewrite Pos.add_1_r. apply Pos.iter_succ.
Qed.

Lemma sha256_loop_length n x :
  (forall y, length (sha256 y) = 32) -> (1 < n)%Z ->
  length (sha256_loop n x) = 32.
Proof.
  intros Hlen Hn. unfold sha256_loop.
  replace (n - 1)%Z with (Z.succ (n - 2)) by lia.
  rewrite Z_iter_succ by lia. apply Hlen.
Qed.

Lemma slice_from_last {A} (s : list A) (n : Z) :
  (0 <= n <= len s)%Z ->
  slice_from s (len s - n) = drop (length s - Z.to_nat n) s.
Proof.
  intros Hn. unfold slice_from, slice_index, len in *. f_equal.
  destruct (Z.ltb_spec (Z.of_nat (length s) - n) 0); lia.
Qed.

Lemma slice_to_front {A} (s : list A) (n : Z) :
  (0 <= n <= len s)%Z ->
  slice_to s (len s - n) = take (length s - Z.to_nat n) s.
Proof.
  intros Hn. unfold slice_to, slice_index, len in *. f_equal.
  destruct (Z.ltb_spec (Z.of_nat (length s) - n) 0); lia.
Qed.

Lemma create_isolated_validation_bits_drop s h :
  (forall x, length (sha256 x) = 32) ->
  (0 <= isolated_check_bits s <= 32)%Z ->
  create_isolated_validation_bits s h =
    drop (32 - Z.to_nat (isolated_check_bits s))
         (sha256_loop icb_iterations h).
Proof.
  intros Hlen Hb. unfold create_isolated_validation_bits.
  pose proof (sha256_loop_length icb_iterations h Hlen eq_refl) as Hl.
  rewrite slice_from_last by (unfold len; lia).
  rewrite Hl. reflexivity.
Qed.

(** C7: the isolated-check suffix is the last [b] bytes of SHA-256
    iterated on the salted hash, but the loop [range(1, icb_iterations)]
    applies it 999 times, not 1000. *)
Theorem create_isolated_validation_bits_999 s h :
  (forall x, length (sha256 x) = 32) ->
  (0 <= isolated_check_bits s <= 32)%Z ->
  create_isolated_validation_bits s h =
    drop (32 - Z.to_nat (isolated_check_bits s)) (Z.iter 999 sha256 h).
Proof.
  intros Hlen Hb. rewrite create_isolated_validation_bits_drop by done.
  reflexivity.
Qed.

(** ** Writing the password file *)

(** C2: the object that [write_password_data] pickles has its shielded
    key and its share object set to [None], but its [knownsecret]
    attribute is the live one: the method blanks an attribute named
    [secret] instead. *)
Theorem write_password_data_pickles_knownsecret passwordfile w n :
  nextavailableshare (self w) = Some n ->
  (threshold (self w) < n)%Z ->
  let r := write_password_data passwordfile w in
  fst r = Ok tt /\
  exists data,
    files (snd r) !! passwordfile = Some (data, heap w) /\
    knownsecret data = knownsecret (self w) /\
    shieldedkey data = None /\
    reedsolomonobj data = None /\
    accountdict data = accountdict (self w) /\
    secret_integrity_check data = secret_integrity_check (self w).
Proof.
  intros Hn Hlt. unfold write_password_data, bind, get_self.
  rewrite Hn. destruct (Z.geb_spec (threshold (self w)) n) as [?|_]; [lia|].
  simpl. split; [done|]. eexists. split; [apply lookup_insert_eq|]. done.
Qed.

(** ** Loading a password file *)

Lemma fold_max_spec l : forall o,
  match fold_max o l with
  | None => o = None /\ l = []
  | Some m => (o = Some m \/ m ∈ l) /\
              (forall a, o = Some a -> (a <= m)%Z) /\
              Forall (fun x => (x <= m)%Z) l
  end.
Proof.
  induction l as [|x l IH]; intros o; simpl.
  - destruct o as [m|]; [|done]. split; [by left|]. split; [|done].
    intros a [= ->]. lia.
  - specialize (IH (Some (py_max o x))). unfold fold_max in *.
    destruct (foldl _ _ l) as [m|]; [|by destruct IH].
    destruct IH as (Hin & Hge & Hall).
    specialize (Hge _ eq_refl).
    assert (x <= m /\ forall a, o = Some a -> a <= m)%Z as [Hx Ho].
    { unfold py_max in Hge. destruct o as [a|].
      - destruct (Z.gtb_spec x a); split; try lia; intros ? [= <-]; lia.
      - split; [lia | done]. }
    split; [|split; [done | by constructor]].
    destruct Hin as [[= Hm] | Hin]; [|right; by apply elem_of_cons; right].
    unfold py_max in Hm. destruct o as [a|].
    + destruct (Z.gtb_spec x a); subst; [right; apply elem_of_cons; by left | by left].
    + subst. right. apply elem_of_cons. by left.
Qed.

Lemma init_shares_Ok shares : forall w w',
  init_shares shares w = (Ok tt, w') ->
  heap w' = heap w /\
  accountdict (self w') = accountdict (self w) /\
  nextavailableshare (self w') =
    fold_max (nextavailableshare (self w)) (sharenumbers_of (heap w) shares).
Proof.
  induction shares as [|r shares IH]; intros w w'; simpl.
  - intros [= <-]. done.
  - unfold bind at 1, deref. destruct (heap w !! r) as [e|] eqn:He; [|done].
    unfold bind at 1, modify_self. intros H. apply IH in H as (-> & -> & ->).
    simpl. done.
Qed.

Lemma init_users_Ok users : forall w w',
  init_users users w = (Ok tt, w') ->
  heap w' = heap w /\
  accountdict (self w') = accountdict (self w) /\
  nextavailableshare (self w') =
    fold_max (nextavailableshare (self w))
      (concat (map (fun u => sharenumbers_of (heap w) (snd u)) users)).
Proof.
  induction users as [|[u shares] users IH]; intros w w'; simpl.
  - intros [= <-]. done.
  - intros H. apply bind_Ok in H as ([] & w1 & H1 & H2).
    apply init_shares_Ok in H1 as (Hh1 & Ha1 & Hn1).
    apply IH in H2 as (-> & -> & ->). rewrite Hh1, Ha1, Hn1.
    split; [done|]. split; [done|].
    unfold fold_max. by rewrite foldl_app.
Qed.

(** C4: after loading a password file the next available share is twice
    the largest share number found in it, over all entries (the statement
    [self.nextavailableshare += self.nextavailableshare] doubles the
    maximum instead of adding one). *)
Theorem new_from_file_doubles_max fuel threshold passwordfile icb out calls fs
    data h w' :
  fs !! passwordfile = Some (data, h) ->
  new fuel threshold (Some passwordfile) icb out calls fs = Some (Ok tt, w') ->
  accountdict (self w') = accountdict data /\ heap w' = h /\
  exists m,
    m ∈ all_sharenumbers (accountdict data) h /\
    Forall (fun x => (x <= m)%Z) (all_sharenumbers (accountdict data) h) /\
    nextavailableshare (self w') = Some (2 * m)%Z.
Proof.
  intros Hfile. unfold new, __init__, init_load. intros [= H]. revert H.
  destruct (ReedSolomon_new threshold None) as [rs|e]; [|done].
  unfold unpickle, bind, modify_self, get_self; simpl. rewrite Hfile. simpl.
  match goal with |- context [init_users ?us ?w] =>
    destruct (init_users us w) as [[[]|e] w1] eqn:Hu; [|done] end.
  apply init_users_Ok in Hu as (Hh & Hacc & Hn). simpl in Hh, Hacc, Hn.
  pose proof (fold_max_spec (all_sharenumbers (accountdict data) h) None) as Hmax.
  unfold all_sharenumbers in Hmax. rewrite <- Hn in Hmax.
  destruct (nextavailableshare (self w1)) as [m|]; [|done].
  intros [= <-]. simpl.
  split; [done|]. split; [done|]. exists m.
  destruct Hmax as ([?|Hin] & _ & Hall); [done|].
  split; [done|]. split; [done|]. f_equal. lia.
Qed.

(** ** Unlocking *)

Lemma reads_unlock_entries password entries :
  forall sharelist, reads (unlock_entries password entries sharelist).
Proof.
  induction entries as [|r entries IH]; intros sharelist; simpl;
    repeat reads_step.
Qed.

Lemma reads_unlock_logins logindata :
  forall sharelist, reads (unlock_logins logindata sharelist).
Proof.
  induction logindata as [|[username password] logindata IH];
    intros sharelist; simpl; repeat reads_step.
  apply reads_unlock_entries.
Qed.

(** The loop over the bootstrap ledger cannot fail once the key is
    installed.  It sets the share number of each entry of the ledger to 0
    and stores the encrypted hash under ['passshash']; ['passhash'] and
    every other entry are left as they were. *)
Lemma unlock_bootstrap_spec entries : forall w key,
  shieldedkey (self w) = Some key ->
  valid_refs (heap w) entries ->
  exists w',
    unlock_bootstrap entries w = (Ok tt, w') /\
    self w' = self w /\
    length (heap w') = length (heap w) /\
    forall r e, heap w !! r = Some e ->
      heap w' !! r =
        Some (if bool_decide (r ∈ entries)
              then Entry 0 (salt e) (passhash e)
                     (Some (AES_encrypt key (passhash e)))
              else e).
Proof.
  induction entries as [|r entries IH]; intros w key Hkey Hvalid;
    cbn [unlock_bootstrap].
  - exists w. repeat split; done.
  - apply Forall_cons in Hvalid as [Hr Hvalid].
    apply lookup_lt_is_Some in Hr as [e He].
    unfold bind at 1, deref. rewrite He.
    unfold bind at 1, get_self. cbn [fst snd self]. rewrite Hkey.
    unfold bind at 1, AES_new_encrypt, ret.
    unfold bind at 1, update. cbn [heap self]. rewrite He.
    unfold bind at 1. cbn [heap self]. rewrite list_lookup_insert_eq
      by (by eapply lookup_lt_Some).
    set (w2 := World _ _ _ _ _).
    destruct (IH w2 key) as (w' & Hrun & Hself & Hlen & Hheap); [done | |].
    { unfold valid_refs, w2; simpl. by rewrite !length_insert. }
    exists w'. split; [done|]. split; [done|].
    split; [by rewrite Hlen; unfold w2; simpl; rewrite !length_insert|].
    intros r0 e0 He0. destruct (decide (r0 = r)) as [->|Hne].
    + rewrite (Hheap r (set_sharenumber 0 (set_passshash (AES_encrypt key (passhash e)) e))).
      2:{ unfold w2; simpl. apply list_lookup_insert_eq.
          rewrite length_insert. by eapply lookup_lt_Some. }
      assert (e0 = e) as -> by congruence.
      rewrite (bool_decide_eq_true_2 (r ∈ r :: entries)) by (apply elem_of_cons; by left).
      by case_bool_decide.
    + rewrite (Hheap r0 e0).
      2:{ unfold w2; simpl. by rewrite !list_lookup_insert_ne. }
      assert (r0 ∈ r :: entries <-> r0 ∈ entries) as Hiff
        by (rewrite elem_of_cons; split; [intros [?|?]; done | by right]).
      by rewrite (bool_decide_ext _ _ Hiff).
Qed.

#[local] Arguments verify_secret : simpl never.
#[local] Arguments sha256_loop : simpl never.
#[local] Arguments unlock_bootstrap : simpl never.

Ltac fields :=
  cbn [self heap stdout urandom_calls files threshold accountdict
       bootstrap_accounts reedsolomonobj knownsecret secret_integrity_check
       isolated_check_bits shieldedkey nextavailableshare secret
       set_accountdict set_bootstrap_accounts set_reedsolomonobj
       set_knownsecret set_secret_integrity_check set_shieldedkey
       set_nextavailableshare set_secret sharenumber salt passhash passshash
       fst snd negb andb app].

Ltac run_monad :=
  cbv beta iota zeta delta
    [bind get_self ret raise modify_self the_reedsolomonobj recover
     AES_new_encrypt print].

(** What [unlock_password_data] does to a locked store, by outcome. *)
Lemma unlock_password_data_cases logindata w :
  knownsecret (self w) = false ->
  valid_refs (heap w) (bootstrap_accounts (self w)) ->
  match unlock_password_data logindata w with
  | (Raise e, w') =>
      knownsecret (self w') = false /\
      shieldedkey (self w') = shieldedkey (self w) /\
      accountdict (self w') = accountdict (self w) /\
      heap w' = heap w /\
      bootstrap_accounts (self w') = bootstrap_accounts (self w)
  | (Ok _, w') =>
      exists key,
        shieldedkey (self w') = Some key /\
        knownsecret (self w') = true /\
        bootstrap_accounts (self w') = [] /\
        accountdict (self w') = accountdict (self w) /\
        forall r e, heap w !! r = Some e ->
          heap w' !! r =
            Some (if bool_decide (r ∈ bootstrap_accounts (self w))
                  then Entry 0 (salt e) (passhash e)
                         (Some (AES_encrypt key (passhash e)))
                  else e)
  end.
Proof.
  intros Hlocked Hvalid. unfold unlock_password_data.
  unfold bind at 1, get_self. rewrite Hlocked.
  pose proof (reads_unlock_logins logindata [] w) as (Hs & Hh & _).
  unfold bind at 1.
  destruct (unlock_logins logindata [] w) as [[sharelist|e1] w1];
    simpl in Hs, Hh; [|by rewrite Hs, Hh].
  run_monad.
  destruct (reedsolomonobj (self w1)) as [rs|] eqn:Hrs;
    [|simpl; by rewrite Hs, Hh].
  destruct (recover_secretdata rs sharelist) as [[[]|e2] rs'];
    [|simpl; by rewrite Hs, Hh].
  simpl. destruct (verify_secret _ _); simpl; [|by rewrite Hs, Hh].
  match goal with |- context [unlock_bootstrap ?l ?w] =>
    destruct (unlock_bootstrap_spec l w (secretdata rs'))
      as (w3 & Hrun & Hself & Hlen & Hheap) end.
  { done. }
  { simpl. by rewrite Hh, Hs. }
  simpl in Hrun. rewrite Hrun. simpl in *.
  exists (secretdata rs'). rewrite Hself. simpl.
  rewrite Hs. repeat split; try done.
  intros r e He. rewrite <- Hs. apply Hheap. by rewrite Hh.
Qed.

(** C8: [unlock_password_data] is all-or-nothing.  When it raises on a
    locked store, the store is still locked (the known-secret flag is
    false and the shielded key is what it was, that is, absent), and the
    account map, its entries and the bootstrap ledger are unchanged. *)
Theorem unlock_failure_keeps_store_locked logindata w e w' :
  knownsecret (self w) = false ->
  shieldedkey (self w) = None ->
  valid_refs (heap w) (bootstrap_accounts (self w)) ->
  unlock_password_data logindata w = (Raise e, w') ->
  knownsecret (self w') = false /\
  shieldedkey (self w') = None /\
  accountdict (self w') = accountdict (self w) /\
  heap w' = heap w /\
  bootstrap_accounts (self w') = bootstrap_accounts (self w).
Proof.
  intros Hlocked Hkey Hvalid Hrun.
  pose proof (unlock_password_data_cases logindata w Hlocked Hvalid) as H.
  rewrite Hrun in H. by rewrite <- Hkey.
Qed.

(** C1: after a successful [unlock_password_data] the bootstrap ledger is
    empty and every entry that was on it has share number 0, but its
    ['passhash'] is still the raw salted hash: the encryption under the
    recovered key is stored under the misspelt key ['passshash'], and no
    isolated-check suffix is appended. *)
Theorem unlock_keeps_bootstrap_passhash logindata w w' :
  knownsecret (self w) = false ->
  valid_refs (heap w) (bootstrap_accounts (self w)) ->
  unlock_password_data logindata w = (Ok tt, w') ->
  exists key,
    shieldedkey (self w') = Some key /\
    knownsecret (self w') = true /\
    bootstrap_accounts (self w') = [] /\
    accountdict (self w') = accountdict (self w) /\
    forall r e,
      r ∈ bootstrap_accounts (self w) -> heap w !! r = Some e ->
      heap w' !! r =
        Some (Entry 0 (salt e) (passhash e) (Some (AES_encrypt key (passhash e)))).
Proof.
  intros Hlocked Hvalid Hrun.
  pose proof (unlock_password_data_cases logindata w Hlocked Hvalid) as H.
  rewrite Hrun in H. destruct H as (key & Hkey & Hknown & Hboot & Hacc & Hheap).
  exists key. repeat split; try done.
  intros r e Hr He. rewrite (Hheap r e He). by rewrite bool_decide_eq_true_2.
Qed.

Lemma do_bytearray_XOR_Ok a b w x w' :
  _do_bytearray_XOR a b w = (Ok x, w') ->
  w' = w /\ x = zip_with Z.lxor a b /\ len a = len b.
Proof.
  unfold _do_bytearray_XOR. run_monad. case_bool_decide; [|done].
  by intros [= <- <-].
Qed.

Lemma do_bytearray_XOR_same_length a b w :
  len a = len b -> _do_bytearray_XOR a b w = (Ok (zip_with Z.lxor a b), w).
Proof.
  intros Hlen. unfold _do_bytearray_XOR. run_monad.
  by rewrite bool_decide_eq_true_2.
Qed.

Lemma unlock_entries_Ok password entries : forall sharelist w sharelist' w',
  unlock_entries password entries sharelist w = (Ok sharelist', w') ->
  w' = w /\
  sharelist' = sharelist ++ candidate_shares (self w) (heap w) password entries.
Proof.
  induction entries as [|r entries IH]; intros sharelist w sharelist' w';
    cbn [unlock_entries].
  - intros [= <- <-]. by rewrite app_nil_r.
  - unfold bind at 1, deref. unfold candidate_shares. cbn [omap list_omap].
    destruct (heap w !! r) as [entry|]; [|done].
    destruct (sharenumber entry =? 0)%Z; [apply IH|].
    unfold bind at 1, get_self. intros H.
    apply bind_Ok in H as (x & w1 & Hx & H).
    apply do_bytearray_XOR_Ok in Hx as (-> & -> & _).
    apply IH in H as [-> ->]. split; [done|].
    by rewrite <- app_assoc.
Qed.

(** C3: every entry of a submitted user whose share number is not 0
    yields a candidate share, bootstrap entries included: the guard of
    [unlock_password_data] skips share number 0 only, so an entry with
    share number -1 puts a share with coordinate -1 on the list. *)
Theorem unlock_entries_takes_bootstrap_share password entries sharelist w
    sharelist' w' r entry :
  unlock_entries password entries sharelist w = (Ok sharelist', w') ->
  r ∈ entries ->
  heap w !! r = Some entry ->
  sharenumber entry = (-1)%Z ->
  candidate_share (self w) entry password ∈ sharelist' /\
  fst (candidate_share (self w) entry password) = (-1)%Z.
Proof.
  intros Hrun Hr Hentry Hsn. apply unlock_entries_Ok in Hrun as [-> ->].
  split; [|done]. apply elem_of_app. right.
  unfold candidate_shares. apply list_elem_of_omap. exists r.
  split; [done|]. by rewrite Hentry, Hsn.
Qed.

(** ** Logging in *)

Lemma StillBootstrapping_not_UnknownUser username :
  UnknownUser username <> StillBootstrapping.
Proof. unfold UnknownUser, StillBootstrapping. cbn. discriminate. Qed.

(** The body of the loop of [is_valid_login] on the first entry, outcome
    by outcome. *)
Lemma login_entries_cons password r entries w :
  login_entries password (r :: entries) w =
  match heap w !! r with
  | None => (Raise SystemError, w)
  | Some entry =>
    let h := sha256 (salt entry ++ password) in
    let s := self w in
    if (sharenumber entry =? -1)%Z then
      (Ok (Some (bytes_eqb h (passhash entry))), w)
    else if negb (knownsecret s) then
      (Ok (Some (isolated_validation s h (passhash entry))), w)
    else
      let core := core_of s entry in
      if bool_decide (len h = len core) then
        let isolated_check :=
          if (isolated_check_bits s >? 0)%Z
          then isolated_validation s h (passhash entry) else false in
        let warned :=
          if isolated_check
          then World (self w) (heap w) (stdout w ++ [break_in])
                 (urandom_calls w) (files w)
          else w in
        if (sharenumber entry =? 0)%Z then
          match shieldedkey s with
          | None => (Raise TypeError, w)
          | Some key =>
              if bytes_eqb (AES_encrypt key h) core then (Ok (Some true), w)
              else (Ok (Some false), warned)
          end
        else
          match reedsolomonobj s with
          | None => (Raise AttributeError, w)
          | Some rs =>
              if is_valid_share rs (sharenumber entry, zip_with Z.lxor h core)
              then (Ok (Some true), w)
              else (Ok (Some false), warned)
          end
      else
        (Raise AssertionError,
         World (self w) (heap w)
           (stdout w ++ [XorDump (len h) (len core) h core])
           (urandom_calls w) (files w))
  end.
Proof.
  cbn [login_entries]. unfold bind at 1, deref.
  destruct (heap w !! r) as [entry|]; [|done].
  unfold bind at 1, get_self. cbv zeta.
  destruct (sharenumber entry =? -1)%Z; [done|].
  destruct (negb (knownsecret (self w))).
  { by destruct (isolated_validation _ _ _). }
  unfold _do_bytearray_XOR, core_of. run_monad. fields.
  case_bool_decide; [|done].
  destruct (sharenumber entry =? 0)%Z.
  - destruct (shieldedkey (self w)); [|done].
    destruct (bytes_eqb _ _); [done|].
    by destruct (if (isolated_check_bits (self w) >? 0)%Z then _ else _).
  - destruct (reedsolomonobj (self w)); [|done].
    destruct (is_valid_share _ _); [done|].
    by destruct (if (isolated_check_bits (self w) >? 0)%Z then _ else _).
Qed.

Lemma login_entries_no_ValueError password entries w e w' :
  login_entries password entries w = (Raise e, w') ->
  forall msg, e <> ValueError msg.
Proof.
  destruct entries as [|r entries]; [done|]. rewrite login_entries_cons.
  destruct (heap w !! r) as [entry|]; [|by intros [= <- <-]]. cbv zeta.
  destruct (sharenumber entry =? -1)%Z; [done|].
  destruct (negb (knownsecret (self w))); [done|].
  case_bool_decide; [|by intros [= <- <-]].
  destruct (sharenumber entry =? 0)%Z.
  - destruct (shieldedkey (self w)); [|by intros [= <- <-]].
    by destruct (bytes_eqb _ _).
  - destruct (reedsolomonobj (self w)); [|by intros [= <- <-]].
    by destruct (is_valid_share _ _).
Qed.

(** A first entry that validates the password decides the login. *)
Lemma login_entries_head_validates password r entries w entry :
  heap w !! r = Some entry ->
  entry_validates (self w) entry password = true ->
  login_entries password (r :: entries) w = (Ok (Some true), w).
Proof.
  intros Hentry Hval. rewrite login_entries_cons, Hentry. cbv zeta.
  unfold entry_validates in Hval. fold (core_of (self w) entry) in Hval.
  destruct (sharenumber entry =? -1)%Z; [by rewrite Hval|].
  destruct (negb (knownsecret (self w))); [by rewrite Hval|].
  apply andb_true_iff in Hval as [Hlen Hval]. rewrite Hlen.
  destruct (sharenumber entry =? 0)%Z.
  - destruct (shieldedkey (self w)) as [key|]; [|done]. by rewrite Hval.
  - destruct (reedsolomonobj (self w)) as [rs|]; [|done]. by rewrite Hval.
Qed.

(** A first entry that is a protector entry with a well-formed share that
    does not check decides the login as well: the verdict is false,
    whatever the entries after it. *)
Lemma login_entries_head_fails password rs r entries w :
  knownsecret (self w) = true ->
  reedsolomonobj (self w) = Some rs ->
  share_fails (self w) rs (heap w) password r ->
  fst (login_entries password (r :: entries) w) = Ok (Some false).
Proof.
  intros Hknown Hrs (entry & Hentry & Hb & Hz & Hlen & Hshare).
  rewrite login_entries_cons, Hentry. cbv zeta.
  rewrite (proj2 (Z.eqb_neq _ _) Hb), Hknown. cbn [negb].
  rewrite bool_decide_eq_true_2 by done.
  rewrite (proj2 (Z.eqb_neq _ _) Hz), Hrs.
  unfold candidate_share in Hshare. fold (core_of (self w) entry) in Hshare.
  cbn [fst snd] in Hshare. by rewrite Hshare.
Qed.

(** The first entry leads to a verdict exactly when it is ready. *)
Lemma login_entries_ready password r entries w :
  (forall x, length (sha256 x) = 32) ->
  (exists verdict : bool,
     fst (login_entries password (r :: entries) w) = Ok (Some verdict)) <->
  entry_ready (self w) (heap w) r.
Proof.
  intros Hsha. rewrite login_entries_cons. unfold entry_ready.
  destruct (heap w !! r) as [entry|]; cbv zeta.
  2:{ split; [by intros [? ?] | by intros (? & ? & _)]. }
  assert (len (sha256 (salt entry ++ password)) = len (core_of (self w) entry)
          <-> length (core_of (self w) entry) = 32) as Hlen.
  { unfold len. rewrite Hsha. lia. }
  destruct (Z.eqb_spec (sharenumber entry) (-1)) as [Hb|Hb].
  { split; [intros _; exists entry; by auto | by eexists]. }
  destruct (knownsecret (self w)) eqn:Hknown; cbn [negb].
  2:{ split; [intros _; exists entry; by auto | by eexists]. }
  case_bool_decide as Hxor.
  - apply Hlen in Hxor. destruct (sharenumber entry =? 0)%Z eqn:Hz.
    + destruct (shieldedkey (self w)) as [key|] eqn:Hkey; cbn [fst].
      * split; [|intros _; destruct (bytes_eqb _ _); by eexists].
        intros _. exists entry. split; [done|]. right. right.
        split; [done|]. rewrite Hz. by eexists.
      * split; [by intros [? ?]|].
        intros (? & [= <-] & [?|[?|(_ & Hsome)]]); [done | done |].
        rewrite Hz in Hsome. by destruct Hsome.
    + destruct (reedsolomonobj (self w)) as [rs|] eqn:Hrs; cbn [fst].
      * split; [|intros _; destruct (is_valid_share _ _); by eexists].
        intros _. exists entry. split; [done|]. right. right.
        split; [done|]. rewrite Hz. by eexists.
      * split; [by intros [? ?]|].
        intros (? & [= <-] & [?|[?|(_ & Hsome)]]); [done | done |].
        rewrite Hz in Hsome. by destruct Hsome.
  - cbn [fst]. split; [by intros [? ?]|].
    intros (? & [= <-] & [?|[?|(Hcore & _)]]); [done | done |].
    exfalso. apply Hxor. by apply Hlen.
Qed.

Lemma is_valid_login_unfold username password w :
  is_valid_login username password w =
  if negb (knownsecret (self w)) && (isolated_check_bits (self w) =? 0)%Z
  then (Raise StillBootstrapping, w)
  else match accountdict (self w) !! username with
       | Some entries => login_entries password entries w
       | None => (Raise (UnknownUser username), w)
       end.
Proof.
  unfold is_valid_login. unfold bind at 1, get_self.
  destruct (negb _ && _); [done|].
  by destruct (accountdict (self w) !! username).
Qed.

(** C6: [is_valid_login] raises [StillBootstrapping] exactly when the
    store is locked and the isolated-check size is 0; that check comes
    first, so it raises [UnknownUser] exactly when the store is not in
    that state and the user name is not in the account map; otherwise it
    returns a boolean verdict exactly when the entry it examines, the
    first of the user, is ready (see [entry_ready]), and [None] exactly
    when the user has no entry. *)
Theorem is_valid_login_outcomes username password w :
  (forall x, length (sha256 x) = 32) ->
  let r := fst (is_valid_login username password w) in
  let bootstrapping :=
    knownsecret (self w) = false /\ isolated_check_bits (self w) = 0%Z in
  (r = Raise StillBootstrapping <-> bootstrapping) /\
  (r = Raise (UnknownUser username) <->
     ~ bootstrapping /\ accountdict (self w) !! username = None) /\
  ((exists verdict : bool, r = Ok (Some verdict)) <->
     ~ bootstrapping /\
     exists first rest,
       accountdict (self w) !! username = Some (first :: rest) /\
       entry_ready (self w) (heap w) first) /\
  (r = Ok None <->
     ~ bootstrapping /\ accountdict (self w) !! username = Some []).
Proof.
  intros Hsha r bootstrapping. subst r.
  pose proof (StillBootstrapping_not_UnknownUser username) as Hdiff.
  rewrite is_valid_login_unfold.
  assert (negb (knownsecret (self w)) && (isolated_check_bits (self w) =? 0)%Z
          = true <-> bootstrapping) as Hb.
  { unfold bootstrapping. rewrite andb_true_iff, negb_true_iff, Z.eqb_eq. done. }
  destruct (negb (knownsecret (self w)) && (isolated_check_bits (self w) =? 0)%Z).
  { assert bootstrapping as Hyes by (by apply Hb).
    cbn [fst]. split; [done|]. split; [|split].
    - split; [|by intros [? _]].
      intros Heq. exfalso. apply Hdiff. congruence.
    - split; [by intros [? ?] | by intros [? _]].
    - split; [done | by intros [? _]]. }
  assert (~ bootstrapping) as Hno by (rewrite <- Hb; done).
  destruct (accountdict (self w) !! username) as [[|first rest]|] eqn:Hlookup.
  - cbn [login_entries fst]. unfold ret. cbn [fst].
    split; [done|]. split; [split; [done | by intros [_ ?]]|]. split.
    + split; [by intros [? ?] | by intros (_ & ? & ? & ? & _)].
    + done.
  - pose proof (login_entries_ready password first rest w Hsha) as Hready.
    destruct (login_entries password (first :: rest) w) as [[verdict|e] w'] eqn:Hrun;
      cbn [fst] in *.
    + split; [done|]. split; [split; [done | by intros [_ ?]]|]. split.
      * split.
        -- intros Hv. split; [done|]. exists first, rest. split; [done|].
           by apply Hready.
        -- intros (_ & first' & rest' & [= <- <-] & Hr). by apply Hready.
      * split; [|by intros [_ ?]]. intros [= ->]. exfalso.
        revert Hrun. rewrite login_entries_cons.
        destruct (heap w !! first) as [entry|]; [|done]. cbv zeta.
        destruct (sharenumber entry =? -1)%Z; [done|].
        destruct (negb (knownsecret (self w))); [done|].
        case_bool_decide; [|done].
        destruct (sharenumber entry =? 0)%Z.
        -- destruct (shieldedkey (self w)); [|done].
           by destruct (bytes_eqb _ _).
        -- destruct (reedsolomonobj (self w)); [|done].
           by destruct (is_valid_share _ _).
    + pose proof (login_entries_no_ValueError _ _ _ _ _ Hrun) as Hno_value.
      split; [|split; [|split]].
      * split; [|done]. intros [= ->]. exfalso. eapply Hno_value. reflexivity.
      * split; [|by intros [_ ?]]. intros [= ->]. exfalso. eapply Hno_value. reflexivity.
      * split; [by intros [? ?]|].
        intros (_ & first' & rest' & [= <- <-] & Hr).
        apply Hready in Hr as [? ?]. done.
      * split; [done | by intros [_ ?]].
  - cbn [fst]. split; [|split; [|split]].
    + split; [|done]. intros Heq. exfalso. apply Hdiff. congruence.
    + done.
    + split; [by intros [? ?] | by intros (_ & ? & ? & ? & _)].
    + split; [done | by intros [_ ?]].
Qed.

(** C9: [is_valid_login] does not get past the first entry of a user.
    In an unlocked store, when that entry is a protector entry whose
    well-formed share does not check, the verdict is false, whatever the
    entries after it: an entry further down the list that validates the
    password is never examined. *)
Theorem is_valid_login_first_share_decides username password w rs first rest :
  knownsecret (self w) = true ->
  reedsolomonobj (self w) = Some rs ->
  accountdict (self w) !! username = Some (first :: rest) ->
  share_fails (self w) rs (heap w) password first ->
  fst (is_valid_login username password w) = Ok (Some false).
Proof.
  intros Hknown Hrs Hlookup Hfail.
  rewrite is_valid_login_unfold, Hknown, Hlookup. cbn [negb andb].
  by eapply login_entries_head_fails.
Qed.

(** ** Creating an account and logging in *)

Lemma zip_with_lxor_involutive (a b : list Z) :
  length a = length b -> zip_with Z.lxor a (zip_with Z.lxor a b) = b.
Proof.
  revert b. induction a as [|x a IH]; intros [|y b] Hlen; try done.
  simpl in *. f_equal; [|apply IH; lia].
  by rewrite <- Z.lxor_assoc, Z.lxor_nilpotent, Z.lxor_0_l.
Qed.

Lemma len_zip_with_lxor (a b : list Z) :
  len a = len b -> len (zip_with Z.lxor a b) = len a.
Proof. unfold len. rewrite length_zip_with. lia. Qed.

Lemma create_isolated_validation_bits_length s h :
  (forall x, length (sha256 x) = 32) ->
  (0 <= isolated_check_bits s <= 32)%Z ->
  len (create_isolated_validation_bits s h) = isolated_check_bits s.
Proof.
  intros Hsha Hb. rewrite create_isolated_validation_bits_drop by done.
  unfold len. rewrite length_drop.
  rewrite (sha256_loop_length icb_iterations h Hsha) by done.
  lia.
Qed.

Lemma create_isolated_validation_bits_ext s s' h :
  isolated_check_bits s = isolated_check_bits s' ->
  create_isolated_validation_bits s h = create_isolated_validation_bits s' h.
Proof. unfold create_isolated_validation_bits. by intros ->. Qed.

(** Cutting a suffix of the right length off a stored hash. *)
Lemma slice_to_app_suffix {A} (x suffix : list A) (n : Z) :
  len suffix = n -> slice_to (x ++ suffix) (len (x ++ suffix) - n) = x.
Proof.
  intros Hn. rewrite slice_to_front
    by (unfold len in *; rewrite length_app; lia).
  unfold len in Hn. rewrite length_app.
  replace (length x + length suffix - Z.to_nat n) with (length x) by lia.
  by rewrite take_app_length.
Qed.

(** The loop of [create_account] only appends: to the heap and to the
    entries of the user. *)
Lemma create_shares_frame username password sharenumbers :
  forall w w' l,
  create_shares username password sharenumbers w = (Ok tt, w') ->
  accountdict (self w) !! username = Some l ->
  (exists l', accountdict (self w') !! username = Some (l ++ l')) /\
  (forall r e, heap w !! r = Some e -> heap w' !! r = Some e) /\
  knownsecret (self w') = knownsecret (self w) /\
  reedsolomonobj (self w') = reedsolomonobj (self w) /\
  isolated_check_bits (self w') = isolated_check_bits (self w) /\
  shieldedkey (self w') = shieldedkey (self w).
Proof.
  induction sharenumbers as [|x sharenumbers IH]; intros w w' l;
    cbn [create_shares].
  - intros [= <-] Hl. split; [exists []; by rewrite app_nil_r|done].
  - intros Hrun Hl.
    apply bind_Ok in Hrun as (rs & w1 & Hrs & Hrun).
    assert (w1 = w) as ->.
    { revert Hrs. unfold the_reedsolomonobj. run_monad.
      destruct (reedsolomonobj (self w)); [by intros [= _ <-] | done]. }
    apply bind_Ok in Hrun as (salt & w2 & [= <- <-] & Hrun).
    apply bind_Ok in Hrun as (xor & w3 & Hxor & Hrun).
    apply do_bytearray_XOR_Ok in Hxor as (-> & -> & _).
    apply bind_Ok in Hrun as (s & w4 & [= <- <-] & Hrun).
    apply bind_Ok in Hrun as (r & w5 & [= <- <-] & Hrun).
    apply bind_Ok in Hrun as ([] & w6 & Happ & Hrun).
    revert Happ. unfold append_entry. run_monad. cbn [self heap].
    rewrite Hl. intros [= <-].
    eapply IH in Hrun; [|cbn [self accountdict set_accountdict];
                         apply lookup_insert_eq].
    destruct Hrun as ((l' & Hl') & Hheap & Hk & Hr & Hi & Hs).
    cbn in Hk, Hr, Hi, Hs. split; [|split; [|done]].
    + exists (length (heap w) :: l'). by rewrite Hl', <- app_assoc.
    + intros r e He. apply Hheap. cbn. by apply lookup_app_l_Some.
Qed.

(** The first share of the loop: the entry it creates and where. *)
Lemma create_shares_head username password x sharenumbers w w' l :
  create_shares username password (x :: sharenumbers) w = (Ok tt, w') ->
  accountdict (self w) !! username = Some l ->
  exists rs salt,
    reedsolomonobj (self w) = Some rs /\
    len (sha256 (salt ++ password)) = len (snd (compute_share rs x)) /\
    (exists l', accountdict (self w') !! username =
                  Some (l ++ length (heap w) :: l')) /\
    heap w' !! length (heap w) =
      Some (Entry x salt
              (zip_with Z.lxor (sha256 (salt ++ password)) (snd (compute_share rs x))
               ++ create_isolated_validation_bits (self w) (sha256 (salt ++ password)))
              None) /\
    knownsecret (self w') = knownsecret (self w) /\
    reedsolomonobj (self w') = reedsolomonobj (self w) /\
    isolated_check_bits (self w') = isolated_check_bits (self w) /\
    shieldedkey (self w') = shieldedkey (self w).
Proof.
  cbn [create_shares]. intros Hrun Hl.
  apply bind_Ok in Hrun as (rs & w1 & Hrs & Hrun).
  assert (w1 = w /\ reedsolomonobj (self w) = Some rs) as [-> Hsome].
  { revert Hrs. unfold the_reedsolomonobj. run_monad.
    destruct (reedsolomonobj (self w)); [by intros [= <- <-] | done]. }
  apply bind_Ok in Hrun as (salt & w2 & [= <- <-] & Hrun).
  apply bind_Ok in Hrun as (xor & w3 & Hxor & Hrun).
  apply do_bytearray_XOR_Ok in Hxor as (-> & -> & Hlen).
  apply bind_Ok in Hrun as (s & w4 & [= <- <-] & Hrun).
  apply bind_Ok in Hrun as (r & w5 & [= <- <-] & Hrun).
  apply bind_Ok in Hrun as ([] & w6 & Happ & Hrun).
  revert Happ. unfold append_entry. run_monad. cbn [self heap].
  rewrite Hl. intros [= <-].
  eapply create_shares_frame in Hrun;
    [|cbn [self accountdict set_accountdict]; apply lookup_insert_eq].
  destruct Hrun as ((l' & Hl') & Hheap & Hk & Hr & Hi & Hs).
  cbn in Hk, Hr, Hi, Hs. exists rs, (os_urandom (urandom_calls w) saltsize).
  split; [done|]. split; [done|]. split; [|split; [|done]].
  - exists l'. by rewrite Hl', <- app_assoc.
  - apply Hheap. cbn. apply list_lookup_middle. done.
Qed.

Lemma range_cons a b : (a < b)%Z -> range a b = a :: range (a + 1) b.
Proof.
  intros Hlt. unfold range.
  replace (Z.to_nat (b - a)) with (S (Z.to_nat (b - (a + 1)))) by lia.
  cbn [seq map]. f_equal; [lia|].
  rewrite <- seq_shift, map_map. apply map_ext. intros i. lia.
Qed.

(** C5: in an unlocked store, an account that [create_account] has
    created logs in with its password, whether it is shielded (no
    shares) or holds one or several shares.  The imported primitives are
    assumed to behave as specified: 32-byte digests, length-preserving
    encryption, and shares that check against the share object that
    computed them. *)
Theorem create_account_then_login username password shares w w' :
  (forall x, length (sha256 x) = 32) ->
  (forall key x, length (AES_encrypt key x) = length x) ->
  (forall rs x, (1 <= x <= 255)%Z ->
     is_valid_share rs (x, snd (compute_share rs x)) = true) ->
  knownsecret (self w) = true ->
  (0 <= isolated_check_bits (self w) <= 32)%Z ->
  (forall n, nextavailableshare (self w) = Some n -> (1 <= n)%Z) ->
  create_account username password shares w = (Ok tt, w') ->
  is_valid_login username password w' = (Ok (Some true), w').
Proof.
  intros Hsha Haes Hshare Hknown Hb Hnext.
  unfold create_account. unfold bind at 1, get_self.
  case_bool_decide as Hnew; [done|].
  destruct ((shares >? 255) || (shares <? 0))%Z eqn:Hrange; [done|].
  apply orb_false_iff in Hrange as [Hhi Hlo].
  destruct (nextavailableshare (self w)) as [n|] eqn:Hn; [|done].
  specialize (Hnext n eq_refl).
  destruct (shares + n >? 255)%Z eqn:Hmax; [done|].
  unfold bind at 1, modify_self. rewrite Hknown. cbn [negb].
  set (w1 := World _ _ _ _ _).
  assert (accountdict (self w1) !! username = Some []) as Hl
    by apply lookup_insert_eq.
  destruct (Z.eqb_spec shares 0) as [->|Hshares].
  - (* a shielded account *)
    intros Hrun. apply bind_Ok in Hrun as (returned & w2 & Hrun & Hret).
    apply bind_Ok in Hrun as (salt & w3 & [= <- <-] & Hrun).
    apply bind_Ok in Hrun as (c & w4 & Hc & Hrun).
    destruct (shieldedkey (self w)) as [key|] eqn:Hkey; [|done].
    revert Hc. run_monad. intros [= <- <-].
    apply bind_Ok in Hrun as (r & w5 & [= <- <-] & Hrun).
    apply bind_Ok in Hrun as ([] & w6 & Happ & [= <- <-]).
    revert Hret. run_monad. intros [= <-].
    revert Happ. unfold append_entry. run_monad. cbn [self heap].
    cbn [accountdict set_accountdict].
    rewrite lookup_insert_eq. intros [= <-].
    rewrite is_valid_login_unfold. fields.
    rewrite Hknown. fields.
    rewrite lookup_insert_eq. fields.
    eapply login_entries_head_validates.
    { fields. apply list_lookup_middle. done. }
    unfold entry_validates, core_of. fields.
    rewrite Hknown, Hkey. fields. cbn [Z.eqb].
    rewrite slice_to_app_suffix
      by (by apply create_isolated_validation_bits_length).
    rewrite bool_decide_eq_true_2
      by (unfold len; by rewrite Haes).
    unfold bytes_eqb. by rewrite bool_decide_eq_true_2.
  - (* an account with shares *)
    assert (0 < shares)%Z as Hpos by lia.
    rewrite range_cons by lia.
    intros Hrun. apply bind_Ok in Hrun as (returned & w2 & [= <- <-] & Hrun).
    apply bind_Ok in Hrun as ([] & w3 & Hloop & [= <-]).
    eapply create_shares_head in Hloop; [|exact Hl].
    destruct Hloop as (rs & salt & Hrs & Hlen & (l' & Hl') & Hheap
                       & Hk & Hr & Hi & Hs).
    cbn in Hrs, Hk, Hr, Hi, Hs, Hheap.
    rewrite (create_isolated_validation_bits_ext _ (self w)) in Hheap by done.
    rewrite is_valid_login_unfold. fields.
    rewrite Hk, Hknown. fields.
    rewrite Hl'. fields.
    eapply login_entries_head_validates; [exact Hheap|].
    unfold entry_validates, core_of. fields.
    rewrite Hk, Hknown, Hi, Hr, Hrs. fields.
    destruct (Z.eqb_spec n (-1)); [lia|].
    destruct (Z.eqb_spec n 0); [lia|].
    rewrite slice_to_app_suffix
      by (by apply create_isolated_validation_bits_length).
    rewrite bool_decide_eq_true_2 by (by rewrite len_zip_with_lxor).
    rewrite zip_with_lxor_involutive by (unfold len in Hlen; lia).
    apply Hshare. lia.
Qed.

(** ** Further properties of the methods

    Refusals and their effect on the store, the shape of the accounts
    that [create_account] makes, what writing and loading keep, and the
    helpers of the class. *)

Tactic Notation "fields_in" ne_hyp_list(Hs) :=
  cbn [self heap stdout urandom_calls files threshold accountdict
       bootstrap_accounts reedsolomonobj knownsecret secret_integrity_check
       isolated_check_bits shieldedkey nextavailableshare secret
       set_accountdict set_bootstrap_accounts set_reedsolomonobj
       set_knownsecret set_secret_integrity_check set_shieldedkey
       set_nextavailableshare set_secret sharenumber salt passhash passshash
       fst snd negb andb app] in Hs.

Lemma create_shares_no_ValueError username password sharenumbers :
  forall w e w',
  create_shares username password sharenumbers w = (Raise e, w') ->
  forall msg, e <> ValueError msg.
Proof.
  induction sharenumbers as [|x l IH]; intros w e w'; cbn [create_shares].
  - done.
  - intros Hrun.
    apply bind_Raise in Hrun as [Hrun|(rs & w1 & _ & Hrun)].
    { revert Hrun. unfold the_reedsolomonobj. run_monad.
      destruct (reedsolomonobj (self w)); [done | by intros [= <- <-]]. }
    apply bind_Raise in Hrun as [Hrun|(salt & w2 & _ & Hrun)]; [done|].
    apply bind_Raise in Hrun as [Hrun|(xor & w3 & _ & Hrun)].
    { revert Hrun. unfold _do_bytearray_XOR. run_monad.
      case_bool_decide; [done | by intros [= <- <-]]. }
    apply bind_Raise in Hrun as [Hrun|(s & w4 & _ & Hrun)]; [done|].
    apply bind_Raise in Hrun as [Hrun|(r & w5 & _ & Hrun)]; [done|].
    apply bind_Raise in Hrun as [Hrun|([] & w6 & _ & Hrun)].
    { revert Hrun. unfold append_entry. run_monad.
      destruct (accountdict (self w5) !! username); [done | by intros [= <- <-]]. }
    by eapply IH.
Qed.

Lemma world_eta (w : world) :
  World (self w) (heap w) (stdout w) (urandom_calls w) (files w) = w.
Proof. by destruct w. Qed.

Lemma set_accountdict_same (s : PolyPasswordHasher) :
  set_accountdict (accountdict s) s = s.
Proof. by destruct s. Qed.

(** The two outcomes of the stage of [create_account] that follows the
    registration of the user name. *)
Lemma create_account_unfold username password shares w :
  create_account username password shares w =
  if bool_decide (is_Some (accountdict (self w) !! username)) then
    (Raise (ValueError "Username exists already!"), w)
  else if ((shares >? 255) || (shares <? 0))%Z then
    (Raise (ValueError ("Invalid number of shares: " +:+ str shares +:+ ".")), w)
  else
  match nextavailableshare (self w) with
  | None => (Raise TypeError, w)
  | Some next =>
  if (shares + next >? 255)%Z then
    (Raise (ValueError ("Would exceed maximum number of shares: "
                        +:+ str shares +:+ ".")), w)
  else
  let w0 := World (set_accountdict (<[username := []]> (accountdict (self w))) (self w))
              (heap w) (stdout w) (urandom_calls w) (files w) in
  if negb (knownsecret (self w)) then
    if negb (shares =? 0)%Z then
      (Raise (ValueError "Cannot produce shares, still bootstrapping!"),
       World (set_accountdict (delete username (<[username := []]> (accountdict (self w))))
                (self w))
         (heap w) (stdout w) (urandom_calls w) (files w))
    else
      let salt := os_urandom (urandom_calls w) saltsize in
      let r := length (heap w) in
      (Ok tt,
       World (Build (threshold (self w))
                (<[username := [r]]> (accountdict (self w)))
                (bootstrap_accounts (self w) ++ [r])
                (reedsolomonobj (self w)) (knownsecret (self w))
                (secret_integrity_check (self w)) (isolated_check_bits (self w))
                (shieldedkey (self w))
                (option_map (fun n => (n + shares)%Z) (nextavailableshare (self w)))
                (secret (self w)))
         (heap w ++ [Entry (-1) salt (sha256 (salt ++ password)) None])
         (stdout w) (S (urandom_calls w)) (files w))
  else if (shares =? 0)%Z then
    match shieldedkey (self w) with
    | None => (Raise TypeError,
               World (self w0) (heap w) (stdout w) (S (urandom_calls w)) (files w))
    | Some key =>
      let salt := os_urandom (urandom_calls w) saltsize in
      let h := sha256 (salt ++ password) in
      (Ok tt,
       World (set_accountdict (<[username := [length (heap w)]]> (accountdict (self w)))
                (self w))
         (heap w ++ [Entry 0 salt
                       (AES_encrypt key h ++ create_isolated_validation_bits (self w) h)
                       None])
         (stdout w) (S (urandom_calls w)) (files w))
    end
  else
    match create_shares username password (range next (next + shares)) w0 with
    | (Ok _, w1) =>
        (Ok tt, World (set_nextavailableshare
                         (option_map (fun n => (n + shares)%Z)
                            (nextavailableshare (self w1))) (self w1))
                  (heap w1) (stdout w1) (urandom_calls w1) (files w1))
    | (Raise e, w1) => (Raise e, w1)
    end
  end.
Proof.
  unfold create_account. unfold bind at 1, get_self.
  case_bool_decide; [done|].
  destruct ((shares >? 255) || (shares <? 0))%Z; [done|].
  destruct (nextavailableshare (self w)) as [next|] eqn:Hnext; [|done].
  destruct (shares + next >? 255)%Z; [done|].
  destruct (knownsecret (self w)) eqn:Hknown; cbn [negb].
  - destruct (shares =? 0)%Z eqn:Hz.
    + destruct (shieldedkey (self w)) as [key|] eqn:Hkey.
      * unfold append_entry, alloc, urandom. run_monad. fields.
        rewrite lookup_insert_eq. fields.
        rewrite insert_insert_eq. done.
      * unfold append_entry, alloc, urandom. run_monad. fields.
        done.
    + run_monad. fields.
      destruct (create_shares _ _ _ _) as [[[]|e] w1]; done.
  - destruct (shares =? 0)%Z eqn:Hz; cbn [negb].
    + unfold append_entry, alloc, urandom. run_monad. fields.
      rewrite lookup_insert_eq. fields. rewrite insert_insert_eq.
      apply Z.eqb_eq in Hz as ->.
      assert (range next (next + 0) = []) as ->
        by (unfold range; by replace (next + 0 - next)%Z with 0%Z by lia).
      cbn [create_shares]. run_monad.
      unfold set_nextavailableshare, set_bootstrap_accounts, set_accountdict.
      fields. by rewrite Hnext, Hknown.
    + run_monad. fields. done.
Qed.

(** X1: [create_account] refuses with a [ValueError] exactly in the four
    cases its guards name. *)
Theorem create_account_ValueError_iff username password shares w n :
  nextavailableshare (self w) = Some n ->
  (exists msg,
     fst (create_account username password shares w) = Raise (ValueError msg)) <->
  (is_Some (accountdict (self w) !! username) \/
   (shares < 0)%Z \/ (255 < shares)%Z \/ (255 < shares + n)%Z \/
   (knownsecret (self w) = false /\ shares <> 0%Z)).
Proof.
  intros Hn. rewrite create_account_unfold, Hn.
  case_bool_decide as Hex; [split; [by left | by eexists]|].
  destruct (Z.gtb_spec shares 255) as [Hhi|Hhi]; cbn [orb].
  { split; [intros _; lia | by eexists]. }
  destruct (Z.ltb_spec shares 0) as [Hlo|Hlo].
  { split; [intros _; lia | by eexists]. }
  destruct (Z.gtb_spec (shares + n) 255) as [Hmax|Hmax].
  { split; [intros _; lia | by eexists]. }
  cbv zeta. destruct (knownsecret (self w)) eqn:Hknown; cbn [negb].
  - destruct (Z.eqb_spec shares 0) as [Hz|Hz].
    + destruct (shieldedkey (self w)); cbn [fst];
        (split; [by intros [msg ?] | intros [?|[?|[?|[?|[? ?]]]]]; done || lia]).
    + destruct (create_shares _ _ _ _) as [[[]|e] w1] eqn:Hrun; cbn [fst].
      * split; [by intros [msg ?] | intros [?|[?|[?|[?|[? ?]]]]]; done || lia].
      * split; [|intros [?|[?|[?|[?|[? ?]]]]]; done || lia].
        intros [msg [= ->]]. exfalso.
        by eapply create_shares_no_ValueError.
  - destruct (Z.eqb_spec shares 0) as [Hz|Hz]; cbn [negb fst].
    + split; [by intros [msg ?] | intros [?|[?|[?|[?|[? ?]]]]]; done || lia].
    + split; [intros _; by repeat right | by eexists].
Qed.

(** X2: a refusal of [create_account] leaves no trace: the user name that
    was registered before the bootstrapping guard is removed again. *)
Theorem create_account_ValueError_restores_store username password shares w
    msg w' :
  create_account username password shares w = (Raise (ValueError msg), w') ->
  w' = w.
Proof.
  rewrite create_account_unfold.
  case_bool_decide as Hex; [by intros [= _ <-]|].
  destruct ((shares >? 255) || (shares <? 0))%Z; [by intros [= _ <-]|].
  destruct (nextavailableshare (self w)) as [n|]; [|done].
  destruct (shares + n >? 255)%Z; [by intros [= _ <-]|].
  cbv zeta. destruct (knownsecret (self w)); cbn [negb].
  - destruct (shares =? 0)%Z.
    + by destruct (shieldedkey (self w)).
    + destruct (create_shares _ _ _ _) as [[[]|e] w1] eqn:Hrun; [done|].
      intros [= -> _]. exfalso. by eapply create_shares_no_ValueError.
  - destruct (shares =? 0)%Z; cbn [negb]; [done|].
    intros [= _ <-]. rewrite delete_insert_id.
    + by rewrite set_accountdict_same, world_eta.
    + apply eq_None_not_Some. done.
Qed.

(** X3: an account created while the store is locked is a bootstrap
    account: one entry with share number -1 that holds the salted hash
    itself and is referred to by the account and by the bootstrap ledger;
    no share number is consumed.  With isolated validation enabled, a
    login on it compares salted hashes, so the password it was created
    with is accepted. *)
Theorem create_account_bootstrap_login username password w w' :
  knownsecret (self w) = false ->
  isolated_check_bits (self w) <> 0%Z ->
  create_account username password 0 w = (Ok tt, w') ->
  let salt := os_urandom (urandom_calls w) saltsize in
  heap w' = heap w ++ [Entry (-1) salt (sha256 (salt ++ password)) None] /\
  accountdict (self w') !! username = Some [length (heap w)] /\
  bootstrap_accounts (self w') = bootstrap_accounts (self w) ++ [length (heap w)] /\
  nextavailableshare (self w') = nextavailableshare (self w) /\
  (forall password',
     is_valid_login username password' w' =
       (Ok (Some (bytes_eqb (sha256 (salt ++ password'))
                    (sha256 (salt ++ password)))), w')) /\
  is_valid_login username password w' = (Ok (Some true), w').
Proof.
  intros Hlocked Hb. rewrite create_account_unfold.
  case_bool_decide as Hex; [done|].
  destruct ((0 >? 255) || (0 <? 0))%Z; [done|].
  destruct (nextavailableshare (self w)) as [n|] eqn:Hn; [|done].
  destruct (0 + n >? 255)%Z; [done|].
  cbv zeta. rewrite Hlocked. cbn [negb Z.eqb]. intros [= <-]. fields.
  split; [done|]. split; [apply lookup_insert_eq|]. split; [done|].
  split; [cbn; by rewrite Z.add_0_r|].
  match goal with |- ?A /\ _ => assert A as Hlogin end.
  { intros password'. rewrite is_valid_login_unfold. fields.
    rewrite (proj2 (Z.eqb_neq _ _) Hb). fields.
    rewrite lookup_insert_eq. cbn [login_entries].
    unfold bind at 1, deref. fields. rewrite list_lookup_middle by done.
    unfold bind at 1, get_self. fields. done. }
  split; [exact Hlogin|]. rewrite Hlogin. unfold bytes_eqb.
  by rewrite bool_decide_eq_true_2.
Qed.

(** What the loop of [create_account] leaves behind: one new entry per
    share number, in order, referred to by the user; nothing else
    changes. *)
Lemma create_shares_spec username password sharenumbers : forall w w' l,
  create_shares username password sharenumbers w = (Ok tt, w') ->
  accountdict (self w) !! username = Some l ->
  (exists new, heap w' = heap w ++ new /\ map sharenumber new = sharenumbers) /\
  self w' = set_accountdict
              (<[username := l ++ seq (length (heap w)) (length sharenumbers)]>
                 (accountdict (self w))) (self w) /\
  stdout w' = stdout w /\ files w' = files w.
Proof.
  induction sharenumbers as [|x sharenumbers IH]; intros w w' l;
    cbn [create_shares].
  - intros [= <-] Hl. split; [exists []; by rewrite app_nil_r|].
    cbn [length seq]. rewrite app_nil_r, insert_id by done.
    by rewrite set_accountdict_same.
  - intros Hrun Hl.
    apply bind_Ok in Hrun as (rs & w1 & Hrs & Hrun).
    assert (w1 = w) as ->.
    { revert Hrs. unfold the_reedsolomonobj. run_monad.
      destruct (reedsolomonobj (self w)); [by intros [= _ <-] | done]. }
    apply bind_Ok in Hrun as (salt & w2 & [= <- <-] & Hrun).
    apply bind_Ok in Hrun as (xor & w3 & Hxor & Hrun).
    apply do_bytearray_XOR_Ok in Hxor as (-> & -> & _).
    apply bind_Ok in Hrun as (s & w4 & [= <- <-] & Hrun).
    apply bind_Ok in Hrun as (r & w5 & [= <- <-] & Hrun).
    apply bind_Ok in Hrun as ([] & w6 & Happ & Hrun).
    revert Happ. unfold append_entry. run_monad. cbn [self heap].
    rewrite Hl. intros [= <-].
    eapply IH in Hrun; [|cbn [self accountdict set_accountdict];
                         apply lookup_insert_eq].
    destruct Hrun as ((new & Hheap & Hnew) & Hself & Hout & Hfiles).
    cbn [self heap stdout files] in *. split; [|split; [|done]].
    + eexists (_ :: new). rewrite Hheap, <- app_assoc. split; [done|].
      cbn [map sharenumber]. by rewrite Hnew.
    + rewrite Hself. unfold set_accountdict. fields.
      rewrite insert_insert_eq, length_app, <- app_assoc. cbn [length app seq].
      by rewrite Nat.add_1_r.
Qed.

(** The loop cannot fail when share data are as long as a digest. *)
Lemma create_shares_total username password rs sharenumbers : forall w l,
  (forall x, length (sha256 x) = 32) ->
  (forall x, length (snd (compute_share rs x)) = 32) ->
  reedsolomonobj (self w) = Some rs ->
  accountdict (self w) !! username = Some l ->
  exists w', create_shares username password sharenumbers w = (Ok tt, w').
Proof.
  intros w l Hsha Hshare. revert w l.
  induction sharenumbers as [|x sharenumbers IH]; intros w l Hrs Hl;
    cbn [create_shares].
  - by eexists.
  - unfold bind at 1, the_reedsolomonobj. run_monad. rewrite Hrs.
    unfold urandom. fields.
    rewrite do_bytearray_XOR_same_length
      by (unfold len; by rewrite Hsha, Hshare).
    unfold alloc, append_entry. run_monad. fields. rewrite Hl.
    eapply IH; fields; [done | apply lookup_insert_eq].
Qed.

Lemma elem_of_range x a b : x ∈ range a b <-> (a <= x < b)%Z.
Proof.
  unfold range. rewrite list_elem_of_fmap. split.
  - intros (i & -> & Hi%elem_of_seq). lia.
  - intros Hx. exists (Z.to_nat (x - a)). split; [lia|].
    apply elem_of_seq. lia.
Qed.

Lemma NoDup_range a b : NoDup (range a b).
Proof.
  unfold range. apply NoDup_fmap_2; [|apply NoDup_seq].
  intros i j Hij. lia.
Qed.

Lemma length_range a b : length (range a b) = Z.to_nat (b - a).
Proof. unfold range. by rewrite length_map, length_seq. Qed.

(** X4: on an unlocked store [create_account] with [shares > 0] succeeds
    whenever its guards pass, gives the account the next [shares]
    consecutive share numbers, one entry each, and moves the counter past
    them. *)
Theorem create_account_allocates_consecutive_shares username password shares
    w n rs :
  (forall x, length (sha256 x) = 32) ->
  (forall x, length (snd (compute_share rs x)) = 32) ->
  knownsecret (self w) = true ->
  reedsolomonobj (self w) = Some rs ->
  accountdict (self w) !! username = None ->
  nextavailableshare (self w) = Some n ->
  (0 < shares <= 255)%Z -> (shares + n <= 255)%Z ->
  exists w',
    create_account username password shares w = (Ok tt, w') /\
    map sharenumber (heap w') = map sharenumber (heap w) ++ range n (n + shares) /\
    accountdict (self w') !! username =
      Some (seq (length (heap w)) (Z.to_nat shares)) /\
    nextavailableshare (self w') = Some (n + shares)%Z.
Proof.
  intros Hsha Hshare Hknown Hrs Hnew Hn Hshares Hmax.
  rewrite create_account_unfold, Hn, Hknown.
  rewrite bool_decide_eq_false_2 by (rewrite Hnew; by intros [? ?]).
  destruct (Z.gtb_spec shares 255); [lia|].
  destruct (Z.ltb_spec shares 0); [lia|].
  destruct (Z.gtb_spec (shares + n) 255); [lia|].
  destruct (Z.eqb_spec shares 0); [lia|]. cbn [orb negb]. cbv zeta.
  set (w0 := World _ _ _ _ _).
  assert (accountdict (self w0) !! username = Some []) as Hl
    by apply lookup_insert_eq.
  destruct (create_shares_total username password rs (range n (n + shares))
              w0 [] Hsha Hshare Hrs Hl) as (w1 & Hrun).
  rewrite Hrun. eexists. split; [done|].
  destruct (create_shares_spec _ _ _ _ _ _ Hrun Hl)
    as ((new & Hheap & Hmap) & Hself & _).
  fields. rewrite Hheap, Hself. unfold w0. fields.
  split; [by rewrite map_app, Hmap|].
  split; [|by rewrite Hn; cbn; f_equal; lia].
  rewrite lookup_insert_eq, length_range. cbn [app]. do 2 f_equal. lia.
Qed.


(** What a successful [create_account] keeps. *)
Lemma create_account_Ok_frame username password shares w w' :
  create_account username password shares w = (Ok tt, w') ->
  (exists new, heap w' = heap w ++ new) /\
  (forall username', username' <> username ->
     accountdict (self w') !! username' = accountdict (self w) !! username') /\
  knownsecret (self w') = knownsecret (self w) /\
  isolated_check_bits (self w') = isolated_check_bits (self w) /\
  shieldedkey (self w') = shieldedkey (self w) /\
  reedsolomonobj (self w') = reedsolomonobj (self w) /\
  secret_integrity_check (self w') = secret_integrity_check (self w) /\
  threshold (self w') = threshold (self w).
Proof.
  rewrite create_account_unfold.
  case_bool_decide as Hex; [done|].
  destruct ((shares >? 255) || (shares <? 0))%Z; [done|].
  destruct (nextavailableshare (self w)) as [n|] eqn:Hn; [|done].
  destruct (shares + n >? 255)%Z; [done|].
  cbv zeta. destruct (knownsecret (self w)) eqn:Hknown; cbn [negb].
  - destruct (shares =? 0)%Z.
    + destruct (shieldedkey (self w)) as [key|] eqn:Hkey; [|done].
      intros [= <-]. fields. rewrite Hknown, Hkey.
      split; [by eexists|]. split; [|done].
      intros username' Hne. by rewrite lookup_insert_ne.
    + set (w0 := World _ _ _ _ _).
      destruct (create_shares _ _ _ _) as [[[]|e] w1] eqn:Hrun; [|done].
      intros [= <-]. fields.
      destruct (create_shares_spec _ _ _ _ _ [] Hrun)
        as ((new & Hheap & _) & Hself & _); [apply lookup_insert_eq|].
      rewrite Hheap, Hself. unfold w0. fields.
      split; [by eexists|]. split; [|done].
      intros username' Hne. by rewrite !lookup_insert_ne.
  - destruct (shares =? 0)%Z; cbn [negb]; [|done].
    intros [= <-]. fields. split; [by eexists|]. split; [|done].
    intros username' Hne. by rewrite lookup_insert_ne.
Qed.

(** The result of a login depends on the state of the store (locked or
    not, isolated-check size, key, share object) and on the entries of
    the user, and on nothing else. *)
Lemma login_entries_ext password entries w1 w2 :
  knownsecret (self w1) = knownsecret (self w2) ->
  isolated_check_bits (self w1) = isolated_check_bits (self w2) ->
  shieldedkey (self w1) = shieldedkey (self w2) ->
  reedsolomonobj (self w1) = reedsolomonobj (self w2) ->
  Forall (fun r => heap w1 !! r = heap w2 !! r) entries ->
  fst (login_entries password entries w1) =
  fst (login_entries password entries w2).
Proof.
  intros Hk Hb Hs Hr Hh. destruct entries as [|r entries]; [done|].
  apply Forall_cons in Hh as [Hhead _].
  rewrite !login_entries_cons, Hhead.
  destruct (heap w2 !! r) as [entry|]; [|done]. cbv zeta.
  unfold core_of, isolated_validation, create_isolated_validation_bits.
  rewrite Hk, Hb, Hs, Hr.
  destruct (sharenumber entry =? -1)%Z; [done|].
  destruct (negb (knownsecret (self w2))); [done|].
  case_bool_decide; [|done].
  destruct (sharenumber entry =? 0)%Z.
  - destruct (shieldedkey (self w2)); [|done].
    by destruct (bytes_eqb _ _).
  - destruct (reedsolomonobj (self w2)); [|done].
    by destruct (is_valid_share _ _).
Qed.

Lemma is_valid_login_ext username password w1 w2 entries :
  knownsecret (self w1) = knownsecret (self w2) ->
  isolated_check_bits (self w1) = isolated_check_bits (self w2) ->
  shieldedkey (self w1) = shieldedkey (self w2) ->
  reedsolomonobj (self w1) = reedsolomonobj (self w2) ->
  accountdict (self w1) !! username = Some entries ->
  accountdict (self w2) !! username = Some entries ->
  Forall (fun r => heap w1 !! r = heap w2 !! r) entries ->
  fst (is_valid_login username password w1) =
  fst (is_valid_login username password w2).
Proof.
  intros Hk Hb Hs Hr Hl1 Hl2 Hh. rewrite !is_valid_login_unfold.
  rewrite Hk, Hb, Hl1, Hl2.
  destruct (negb _ && _); [done|]. by apply login_entries_ext.
Qed.

(** X6: creating an account leaves every other account as it was: its
    list of entries, the entries themselves, and so the verdict of any
    login on it. *)
Theorem create_account_keeps_other_accounts username password shares w w'
    username' password' entries :
  create_account username password shares w = (Ok tt, w') ->
  username' <> username ->
  accountdict (self w) !! username' = Some entries ->
  valid_refs (heap w) entries ->
  accountdict (self w') !! username' = Some entries /\
  Forall (fun r => heap w' !! r = heap w !! r) entries /\
  fst (is_valid_login username' password' w') =
  fst (is_valid_login username' password' w).
Proof.
  intros Hrun Hne Hl Hvalid.
  apply create_account_Ok_frame in Hrun
    as ((new & Hheap) & Hacc & Hk & Hb & Hs & Hr & _).
  assert (Forall (fun r => heap w' !! r = heap w !! r) entries) as Hsame.
  { eapply Forall_impl; [exact Hvalid|]. intros r Hlt. cbn in Hlt.
    rewrite Hheap. by apply lookup_app_l. }
  split; [by rewrite Hacc|]. split; [done|].
  eapply is_valid_login_ext; try done. by rewrite Hacc.
Qed.

Lemma NoDup_filter_app_fresh (old new : list Z) (n : Z) :
  Forall (fun x => (x < n)%Z) old ->
  Forall (fun x => (x <= 0 \/ n <= x)%Z) new ->
  NoDup (filter (fun x => (0 < x)%Z) old) ->
  NoDup (filter (fun x => (0 < x)%Z) new) ->
  NoDup (filter (fun x => (0 < x)%Z) (old ++ new)).
Proof.
  intros Hold Hnew Hdold Hdnew. rewrite filter_app. apply NoDup_app.
  split; [done|]. split; [|done].
  intros x [Hpos Hx]%list_elem_of_filter [_ Hx']%list_elem_of_filter.
  rewrite Forall_forall in Hold, Hnew.
  specialize (Hold x Hx). specialize (Hnew x Hx'). lia.
Qed.

(** X7: [create_account] keeps share numbers fresh.  Whatever account it
    creates, afterwards every entry still carries a share number below
    the next available one and no positive share number occurs twice. *)
Theorem create_account_keeps_share_numbers_fresh username password shares w w' :
  share_numbers_fresh w ->
  create_account username password shares w = (Ok tt, w') ->
  share_numbers_fresh w'.
Proof.
  intros (n & Hn & Hpos & Hbelow & Hdup). rewrite create_account_unfold, Hn.
  case_bool_decide as Hex; [done|].
  destruct (Z.gtb_spec shares 255) as [?|Hhi]; [done|].
  destruct (Z.ltb_spec shares 0) as [?|Hlo]; [done|]. cbn [orb].
  destruct (shares + n >? 255)%Z; [done|].
  cbv zeta.
  assert (forall w1 new,
    map sharenumber (heap w1) = map sharenumber (heap w) ++ new ->
    nextavailableshare (self w1) = Some (n + shares)%Z ->
    Forall (fun x => (x <= 0 \/ n <= x)%Z) new ->
    Forall (fun x => (x < n + shares)%Z) new ->
    NoDup (filter (fun x => (0 < x)%Z) new) ->
    share_numbers_fresh w1) as Hfresh.
  { intros w1 new Hmap Hnext Hnew Hlt Hdnew. exists (n + shares)%Z.
    split; [done|]. split; [lia|]. rewrite Hmap. split.
    - apply Forall_app. split; [|done].
      eapply Forall_impl; [exact Hbelow|]. intros x Hx. cbn in Hx. lia.
    - by eapply NoDup_filter_app_fresh. }
  destruct (knownsecret (self w)) eqn:Hknown; cbn [negb].
  - destruct (Z.eqb_spec shares 0) as [->|Hz].
    + destruct (shieldedkey (self w)) as [key|]; [|done]. intros [= <-].
      apply (Hfresh _ [0%Z]); fields.
      * by rewrite map_app.
      * by rewrite Hn, Z.add_0_r.
      * repeat constructor. lia.
      * repeat constructor. lia.
      * rewrite filter_cons_False by lia. rewrite filter_nil. constructor.
    + set (w0 := World _ _ _ _ _).
      destruct (create_shares _ _ _ _) as [[[]|e] w1] eqn:Hrun; [|done].
      intros [= <-]. fields.
      destruct (create_shares_spec _ _ _ _ _ [] Hrun)
        as ((new & Hheap & Hmap) & Hself & _); [apply lookup_insert_eq|].
      apply (Hfresh _ (range n (n + shares))); fields.
      * by rewrite Hheap, map_app, Hmap.
      * rewrite Hself. unfold w0. fields. by rewrite Hn.
      * apply Forall_forall. intros x Hx%elem_of_range. lia.
      * apply Forall_forall. intros x Hx%elem_of_range. lia.
      * apply NoDup_filter, NoDup_range.
  - destruct (Z.eqb_spec shares 0) as [->|Hz]; cbn [negb]; [|done].
    intros [= <-]. apply (Hfresh _ [(-1)%Z]); fields.
    + by rewrite map_app.
    + by rewrite Z.add_0_r.
    + repeat constructor. lia.
    + repeat constructor. lia.
    + rewrite filter_cons_False by lia. rewrite filter_nil. constructor.
Qed.

(** What a successful [write_password_data] does to the world. *)
Lemma write_password_data_Ok passwordfile w w' :
  write_password_data passwordfile w = (Ok tt, w') ->
  w' = World (set_secret true (self w)) (heap w) (stdout w) (urandom_calls w)
         (<[passwordfile :=
              (set_reedsolomonobj None (set_shieldedkey None (set_secret true (self w))),
               heap w)]> (files w)).
Proof.
  unfold write_password_data. unfold bind at 1, get_self.
  destruct (match nextavailableshare (self w) with
            | Some n => (threshold (self w) >=? n)%Z | None => true end);
    [done|].
  unfold write_file. run_monad. fields. intros [= <-].
  by destruct w as [[] ? ? ? ?].
Qed.


(** X9: after [write_password_data] the live store is what it was: still
    unlocked, with its key, its share object, its accounts and entries,
    and every login gets the verdict it got before.  Only the file named
    is written. *)
Theorem write_password_data_keeps_store_live passwordfile w w' :
  write_password_data passwordfile w = (Ok tt, w') ->
  knownsecret (self w') = knownsecret (self w) /\
  shieldedkey (self w') = shieldedkey (self w) /\
  reedsolomonobj (self w') = reedsolomonobj (self w) /\
  accountdict (self w') = accountdict (self w) /\
  bootstrap_accounts (self w') = bootstrap_accounts (self w) /\
  nextavailableshare (self w') = nextavailableshare (self w) /\
  secret_integrity_check (self w') = secret_integrity_check (self w) /\
  heap w' = heap w /\
  (forall other, other <> passwordfile -> files w' !! other = files w !! other) /\
  (forall username password,
     fst (is_valid_login username password w') =
     fst (is_valid_login username password w)).
Proof.
  intros ->%write_password_data_Ok. fields. repeat split; try done.
  - intros other Hne. by rewrite lookup_insert_ne.
  - intros username password. rewrite !is_valid_login_unfold. fields.
    destruct (negb _ && _); [done|].
    destruct (accountdict (self w) !! username) as [entries|]; [|done].
    apply login_entries_ext; try done. by apply Forall_true.
Qed.

Lemma set_nextavailableshare_same (s : PolyPasswordHasher) :
  set_nextavailableshare (nextavailableshare s) s = s.
Proof. by destruct s. Qed.

(** The loops of [__init__] on entries that exist. *)
Lemma init_shares_run shares : forall w,
  valid_refs (heap w) shares ->
  init_shares shares w =
    (Ok tt,
     World (set_nextavailableshare
              (fold_max (nextavailableshare (self w)) (sharenumbers_of (heap w) shares))
              (self w))
       (heap w) (stdout w) (urandom_calls w) (files w)).
Proof.
  induction shares as [|r shares IH]; intros w Hvalid; cbn [init_shares].
  - cbn. by rewrite set_nextavailableshare_same, world_eta.
  - apply Forall_cons in Hvalid as [Hr Hvalid].
    apply lookup_lt_is_Some in Hr as [e He].
    unfold bind at 1, deref. rewrite He.
    unfold bind at 1, modify_self. rewrite IH by done. fields.
    unfold sharenumbers_of. cbn [omap list_omap]. rewrite He. done.
Qed.

Lemma init_users_run users : forall w,
  Forall (fun u => valid_refs (heap w) (snd u)) users ->
  init_users users w =
    (Ok tt,
     World (set_nextavailableshare
              (fold_max (nextavailableshare (self w))
                 (concat (map (fun u => sharenumbers_of (heap w) (snd u)) users)))
              (self w))
       (heap w) (stdout w) (urandom_calls w) (files w)).
Proof.
  induction users as [|[u shares] users IH]; intros w Hvalid; cbn [init_users].
  - cbn. by rewrite set_nextavailableshare_same, world_eta.
  - apply Forall_cons in Hvalid as [Hu Hvalid]. cbn [snd] in Hu.
    unfold bind at 1. rewrite init_shares_run by done.
    rewrite IH by done. fields. cbn [map concat snd].
    unfold fold_max. by rewrite foldl_app.
Qed.

(** Loading a file whose entries exist, outcome by outcome. *)
Lemma new_from_file_run fuel k passwordfile icb out calls fs data h rs :
  fs !! passwordfile = Some (data, h) ->
  ReedSolomon_new k None = Ok rs ->
  map_Forall (fun _ l => valid_refs h l) (accountdict data) ->
  let loaded next :=
    World (Build k (accountdict data) [] (Some rs) false
             (secret_integrity_check data) icb None next false)
      h out calls fs in
  new fuel k (Some passwordfile) icb out calls fs =
  Some (match fold_max None (all_sharenumbers (accountdict data) h) with
        | None => (Raise TypeError, loaded None)
        | Some m => (Ok tt, loaded (Some (m + m)%Z))
        end).
Proof.
  intros Hfile Hrs Hvalid loaded. unfold new, __init__, init_load. rewrite Hrs.
  unfold unpickle. run_monad. fields. rewrite Hfile. fields.
  rewrite init_users_run.
  2:{ fields. apply map_Forall_to_list in Hvalid.
      eapply Forall_impl; [exact Hvalid|]. by intros [u l]. }
  unfold blank. fields. unfold all_sharenumbers, loaded.
  destruct (fold_max None _); reflexivity.
Qed.

(** X10: a file written by [write_password_data] loads back as a locked
    store with the same accounts, entries and integrity fingerprint.
    The threshold and the isolated-check size are those given to the
    constructor, the bootstrap ledger is empty, no key is held. *)
Theorem write_then_load_round_trip passwordfile w w1 fuel k icb out calls rs :
  write_password_data passwordfile w = (Ok tt, w1) ->
  ReedSolomon_new k None = Ok rs ->
  map_Forall (fun _ l => valid_refs (heap w) l) (accountdict (self w)) ->
  all_sharenumbers (accountdict (self w)) (heap w) <> [] ->
  exists w2,
    new fuel k (Some passwordfile) icb out calls (files w1) = Some (Ok tt, w2) /\
    accountdict (self w2) = accountdict (self w) /\
    heap w2 = heap w /\
    secret_integrity_check (self w2) = secret_integrity_check (self w) /\
    knownsecret (self w2) = false /\
    shieldedkey (self w2) = None /\
    bootstrap_accounts (self w2) = [] /\
    reedsolomonobj (self w2) = Some rs /\
    threshold (self w2) = k /\
    isolated_check_bits (self w2) = icb.
Proof.
  intros ->%write_password_data_Ok Hrs Hvalid Hne. fields.
  erewrite new_from_file_run; [|apply lookup_insert_eq|done|done]. fields.
  pose proof (fold_max_spec (all_sharenumbers (accountdict (self w)) (heap w)) None)
    as Hmax.
  destruct (fold_max None _) as [m|]; [|by destruct Hmax].
  eexists. split; [done|]. done.
Qed.

(** X11: a file that holds no entry cannot be loaded: the maximum over no
    share number is [None], and doubling it raises [TypeError]. *)
Theorem new_from_file_without_entries fuel k passwordfile icb out calls fs
    data h rs :
  fs !! passwordfile = Some (data, h) ->
  ReedSolomon_new k None = Ok rs ->
  map_Forall (fun _ l => l = []) (accountdict data) ->
  exists w',
    new fuel k (Some passwordfile) icb out calls fs = Some (Raise TypeError, w').
Proof.
  intros Hfile Hrs Hempty.
  erewrite new_from_file_run; [|done|done|].
  2:{ eapply map_Forall_impl; [exact Hempty|]. intros u l ->. constructor. }
  assert (all_sharenumbers (accountdict data) h = []) as ->.
  { unfold all_sharenumbers. apply map_Forall_to_list in Hempty.
    induction Hempty as [|[u l] users Hl _ IH]; [done|].
    cbn in Hl. subst l. cbn. exact IH. }
  cbn. by eexists.
Qed.

(** X12: [_do_bytearray_XOR] succeeds exactly on arguments of the same
    length, without printing; the result has that length, and XORing it
    with the first argument again gives back the second.  On arguments of
    different lengths it prints both and fails its assertion. *)
Theorem do_bytearray_XOR_round_trip a b w :
  (len a = len b ->
   exists x, _do_bytearray_XOR a b w = (Ok x, w) /\ len x = len a /\
             _do_bytearray_XOR a x w = (Ok b, w)) /\
  (len a <> len b ->
   _do_bytearray_XOR a b w =
     (Raise AssertionError,
      World (self w) (heap w) (stdout w ++ [XorDump (len a) (len b) a b])
        (urandom_calls w) (files w))).
Proof.
  split; intros Hlen.
  - exists (zip_with Z.lxor a b).
    rewrite do_bytearray_XOR_same_length by done.
    rewrite len_zip_with_lxor by done. split; [done|]. split; [done|].
    rewrite do_bytearray_XOR_same_length by (by rewrite len_zip_with_lxor).
    rewrite zip_with_lxor_involutive; [done|]. unfold len in Hlen. lia.
  - unfold _do_bytearray_XOR. run_monad. by rewrite bool_decide_eq_false_2.
Qed.

Lemma Z_iter_shift {A} (f : A -> A) (x : A) (n : Z) :
  (0 <= n)%Z -> Z.iter n f (f x) = Z.iter (Z.succ n) f x.
Proof.
  revert n. apply natlike_ind; [done|]. intros n Hn IH.
  rewrite (Z_iter_succ f (f x)) by done. rewrite IH.
  by rewrite <- Z_iter_succ by lia.
Qed.

Lemma sha256_loop_after_first n x :
  (1 <= n)%Z -> sha256_loop n (sha256 x) = Z.iter n sha256 x.
Proof.
  intros Hn. unfold sha256_loop. rewrite Z_iter_shift by lia.
  f_equal. lia.
Qed.

(** X13: [create_secret] returns the 32 bytes it draws and leaves on the
    object the digest of exactly [recombination_iterations] applications
    of SHA-256 to them; [verify_secret] accepts the secret against it. *)
Theorem create_secret_fingerprint_verifies w :
  let secret := os_urandom (urandom_calls w) secret_length in
  let r := create_secret w in
  fst r = Ok secret /\
  secret_integrity_check (self (snd r)) =
    Some (Z.iter recombination_iterations sha256 secret) /\
  verify_secret (self (snd r)) secret = true /\
  urandom_calls (snd r) = S (urandom_calls w).
Proof.
  intros secret r. subst r. unfold create_secret, urandom. run_monad. fields.
  fold secret. split; [done|].
  split; [by rewrite sha256_loop_after_first|]. split; [|done].
  unfold verify_secret. fields. by apply bool_decide_eq_true_2.
Qed.

(** The loop of [__init__] that draws secrets until the share object
    accepts one. *)
Lemma new_secret_loop_run n : forall fuel k w rs,
  (forall i, i < n ->
     ReedSolomon_new k (Some (os_urandom (urandom_calls w + i) secret_length))
       = Raise TypeError) ->
  ReedSolomon_new k (Some (os_urandom (urandom_calls w + n) secret_length)) = Ok rs ->
  n < fuel ->
  let key := os_urandom (urandom_calls w + n) secret_length in
  exists w',
    new_secret_loop fuel k w = Some (Ok tt, w') /\
    shieldedkey (self w') = Some key /\
    secret_integrity_check (self w') =
      Some (sha256_loop recombination_iterations (sha256 key)) /\
    reedsolomonobj (self w') = Some rs /\
    urandom_calls w' = S (urandom_calls w + n) /\
    threshold (self w') = threshold (self w) /\
    accountdict (self w') = accountdict (self w) /\
    bootstrap_accounts (self w') = bootstrap_accounts (self w) /\
    knownsecret (self w') = knownsecret (self w) /\
    isolated_check_bits (self w') = isolated_check_bits (self w) /\
    nextavailableshare (self w') = nextavailableshare (self w) /\
    heap w' = heap w /\ stdout w' = stdout w /\ files w' = files w.
Proof.
  induction n as [|n IH]; intros fuel k w rs Hfail Hok Hfuel key;
    (destruct fuel as [|fuel]; [lia|]); cbn [new_secret_loop];
    unfold create_secret, urandom; run_monad; fields.
  - subst key. rewrite Nat.add_0_r in *. rewrite Hok.
    eexists. split; [done|]. fields. repeat split; done.
  - pose proof (Hfail 0 ltac:(lia)) as H0. rewrite Nat.add_0_r in H0.
    rewrite H0.
    set (w1 := World _ _ _ _ _).
    destruct (IH fuel k w1 rs) as (w' & Hrun & Hkey & Hsic & Hrs & Hcalls & Hrest).
    + intros i Hi. unfold w1. fields.
      replace (S (urandom_calls w) + i) with (urandom_calls w + S i) by lia.
      apply Hfail. lia.
    + unfold w1. fields.
      by replace (S (urandom_calls w) + n) with (urandom_calls w + S n) by lia.
    + lia.
    + unfold w1 in Hkey, Hsic, Hcalls, Hrest. fields_in Hkey Hsic Hcalls Hrest.
      replace (S (urandom_calls w) + n) with (urandom_calls w + S n)
        in Hkey, Hsic, Hcalls by lia.
      exists w'. split; [exact Hrun|]. split; [exact Hkey|].
      split; [exact Hsic|]. split; [exact Hrs|]. split; [exact Hcalls|].
      exact Hrest.
Qed.

(** X14: a new store comes out unlocked and empty, with share counter 1.
    When the share object refuses the first [n] secrets with [TypeError],
    the constructor draws again, and the key it installs is the one the
    share object accepted, with the fingerprint of that key and of no
    earlier one. *)
Theorem new_store_retries_until_share_object fuel k icb out calls fs n rs :
  (forall i, i < n ->
     ReedSolomon_new k (Some (os_urandom (calls + i) secret_length))
       = Raise TypeError) ->
  ReedSolomon_new k (Some (os_urandom (calls + n) secret_length)) = Ok rs ->
  n < fuel ->
  let key := os_urandom (calls + n) secret_length in
  exists w',
    new fuel k None icb out calls fs = Some (Ok tt, w') /\
    shieldedkey (self w') = Some key /\
    verify_secret (self w') key = true /\
    reedsolomonobj (self w') = Some rs /\
    knownsecret (self w') = true /\
    nextavailableshare (self w') = Some 1%Z /\
    accountdict (self w') = ∅ /\
    bootstrap_accounts (self w') = [] /\
    heap w' = [] /\
    threshold (self w') = k /\
    isolated_check_bits (self w') = icb /\
    urandom_calls w' = S (calls + n) /\
    share_numbers_fresh w'.
Proof.
  intros Hfail Hok Hfuel key. unfold new, __init__.
  set (w0 := World _ _ _ _ _).
  destruct (new_secret_loop_run n fuel k w0 rs Hfail Hok Hfuel)
    as (w1 & -> & Hkey & Hsic & Hrs & Hcalls & Hk & Hacc & Hboot & _ & Hb & _
        & Hheap & _).
  unfold w0 in *. fields_in Hkey Hsic Hcalls Hk Hacc Hboot Hb Hheap.
  run_monad. fields. eexists. split; [done|]. fields.
  rewrite Hkey, Hrs, Hacc, Hboot, Hheap, Hk, Hb, Hcalls.
  repeat split; try done.
  - unfold verify_secret. fields. rewrite Hsic. by apply bool_decide_eq_true_2.
  - exists 1%Z. fields. repeat split; try done; cbn; constructor.
Qed.

(** The break-in warning of the loop. *)
Lemma login_entries_prints password entries w :
  let r := login_entries password entries w in
  (fst r = Ok (Some true) -> snd r = w) /\
  (fst r = Ok (Some false) ->
   snd r = w \/
   (knownsecret (self w) = true /\ (0 < isolated_check_bits (self w))%Z /\
    snd r = World (self w) (heap w) (stdout w ++ [break_in])
              (urandom_calls w) (files w))).
Proof.
  cbv zeta. destruct entries as [|r entries]; [done|].
  rewrite login_entries_cons.
  destruct (heap w !! r) as [entry|]; [|done]. cbv zeta.
  destruct (sharenumber entry =? -1)%Z; [split; [done | by left]|].
  destruct (knownsecret (self w)) eqn:Hknown; cbn [negb];
    [|split; [done | by left]].
  case_bool_decide; [|done].
  destruct (sharenumber entry =? 0)%Z.
  - destruct (shieldedkey (self w)); [|done].
    destruct (bytes_eqb _ _); [done|]. cbn [fst snd]. split; [done|].
    intros _.
    destruct (Z.gtb_spec (isolated_check_bits (self w)) 0) as [Hb|Hb];
      [|by left].
    destruct (isolated_validation _ _ _); [|by left].
    right. split; [done|]. split; [lia | done].
  - destruct (reedsolomonobj (self w)); [|done].
    destruct (is_valid_share _ _); [done|]. cbn [fst snd]. split; [done|].
    intros _.
    destruct (Z.gtb_spec (isolated_check_bits (self w)) 0) as [Hb|Hb];
      [|by left].
    destruct (isolated_validation _ _ _); [|by left].
    right. split; [done|]. split; [lia | done].
Qed.

(** X15: [is_valid_login] prints nothing when it accepts a login.  When it
    rejects one it prints either nothing or the one line of the break-in
    warning, and the warning only on an unlocked store with isolated
    validation enabled. *)
Theorem is_valid_login_prints_only_on_failure username password w :
  let r := is_valid_login username password w in
  (fst r = Ok (Some true) -> snd r = w) /\
  (fst r = Ok (Some false) ->
   snd r = w \/
   (knownsecret (self w) = true /\ (0 < isolated_check_bits (self w))%Z /\
    snd r = World (self w) (heap w) (stdout w ++ [break_in])
              (urandom_calls w) (files w))).
Proof.
  cbv zeta. rewrite is_valid_login_unfold.
  destruct (negb _ && _); [done|].
  destruct (accountdict (self w) !! username) as [entries|]; [|done].
  by apply login_entries_prints.
Qed.

(** X16: [unlock_password_data] works once.  A store that it has unlocked
    refuses any further call, and is not changed by it. *)
Theorem unlock_password_data_only_once logindata logindata' w w' :
  unlock_password_data logindata w = (Ok tt, w') ->
  knownsecret (self w') = true /\
  unlock_password_data logindata' w' =
    (Raise (ValueError "PPH is already in normal operation!"), w').
Proof.
  intros Hrun.
  assert (knownsecret (self w') = true) as Hknown.
  { revert Hrun. unfold unlock_password_data. unfold bind at 1, get_self.
    destruct (knownsecret (self w)); [done|]. intros Hrun.
    apply bind_Ok in Hrun as (sharelist & w1 & _ & Hrun).
    apply bind_Ok in Hrun as ([] & w2 & _ & Hrun).
    apply bind_Ok in Hrun as (rs & w3 & _ & Hrun).
    apply bind_Ok in Hrun as (s & w4 & _ & Hrun).
    destruct (negb (verify_secret s (secretdata rs))); [done|].
    apply bind_Ok in Hrun as ([] & w5 & _ & Hrun).
    apply bind_Ok in Hrun as (s' & w6 & _ & Hrun).
    apply bind_Ok in Hrun as ([] & w7 & _ & Hrun).
    apply bind_Ok in Hrun as ([] & w8 & _ & Hrun).
    revert Hrun. unfold modify_self. by intros [= <-]. }
  split; [done|].
  unfold unlock_password_data. unfold bind at 1, get_self. by rewrite Hknown.
Qed.

Lemma candidate_shares_nonzero s h password entries :
  Forall (fun share => fst share <> 0%Z) (candidate_shares s h password entries).
Proof.
  unfold candidate_shares. induction entries as [|r entries IH]; [constructor|].
  cbn [omap list_omap]. destruct (h !! r) as [entry|]; [|done].
  destruct (Z.eqb_spec (sharenumber entry) 0); [done|]. by constructor.
Qed.

Lemma unlock_logins_Ok logindata : forall sharelist w sharelist' w',
  unlock_logins logindata sharelist w = (Ok sharelist', w') ->
  w' = w /\
  sharelist' = sharelist ++
    concat (map (fun login =>
                   candidate_shares (self w) (heap w) (snd login)
                     (default [] (accountdict (self w) !! fst login)))
              logindata) /\
  Forall (fun login => is_Some (accountdict (self w) !! fst login)) logindata.
Proof.
  induction logindata as [|[username password] logindata IH];
    intros sharelist w sharelist' w'; cbn [unlock_logins].
  - intros [= <- <-]. by rewrite app_nil_r.
  - unfold bind at 1, get_self.
    destruct (accountdict (self w) !! username) as [entries|] eqn:Hl; [|done].
    intros Hrun. apply bind_Ok in Hrun as (l1 & w1 & Hent & Hrun).
    apply unlock_entries_Ok in Hent as [-> ->].
    apply IH in Hrun as (-> & -> & Hall). split; [done|].
    cbn [map concat fst snd]. rewrite Hl. cbn [default].
    split; [by rewrite <- app_assoc|].
    constructor; [cbn [fst]; by rewrite Hl | done].
Qed.

(** X17: the share list that [unlock_password_data] hands to the share
    object holds, login by login in the order submitted, one share for
    each entry of the user whose share number is not 0; entries with
    share number 0 give none.  Collecting the list changes nothing and
    needs every submitted user to exist. *)
Theorem unlock_logins_share_list logindata w sharelist w' :
  unlock_logins logindata [] w = (Ok sharelist, w') ->
  w' = w /\
  sharelist =
    concat (map (fun login =>
                   candidate_shares (self w) (heap w) (snd login)
                     (default [] (accountdict (self w) !! fst login)))
              logindata) /\
  Forall (fun share => fst share <> 0%Z) sharelist /\
  Forall (fun login => is_Some (accountdict (self w) !! fst login)) logindata.
Proof.
  intros (-> & -> & Hall)%unlock_logins_Ok. cbn [app].
  split; [done|]. split; [done|]. split; [|done].
  apply Forall_concat, Forall_map, Forall_forall. intros login _.
  apply candidate_shares_nonzero.
Qed.

Lemma slice_from_app_suffix {A} (x suffix : list A) (n : Z) :
  len suffix = n -> slice_from (x ++ suffix) (len (x ++ suffix) - n) = suffix.
Proof.
  intros Hn. rewrite slice_from_last
    by (unfold len in *; rewrite length_app; lia).
  unfold len in Hn. rewrite length_app.
  replace (length x + length suffix - Z.to_nat n) with (length x) by lia.
  by rewrite drop_app_length.
Qed.

(** X18: with isolated validation disabled the check of
    [isolated_validation] is empty: it accepts every hash against every
    stored value. *)
Theorem isolated_validation_disabled_accepts s passhash stored_hash :
  isolated_check_bits s = 0%Z ->
  isolated_validation s passhash stored_hash = true.
Proof.
  intros Hb. unfold isolated_validation, create_isolated_validation_bits.
  rewrite Hb, !Z.sub_0_r.
  assert (forall l : list Z, slice_from l (len l) = []) as Hnil.
  { intros l. unfold slice_from, slice_index, len.
    destruct (Z.ltb_spec (Z.of_nat (length l)) 0); [lia|].
    rewrite Z.min_id, Nat2Z.id. apply drop_all. }
  rewrite !Hnil. done.
Qed.

(** X19: an account created on an unlocked store with isolated validation
    passes the isolated check of a locked store that holds the same
    accounts and entries (such as the store loaded from the file written
    afterwards), provided it is given the same isolated-check size. *)
Theorem created_account_passes_isolated_validation username password shares
    w w1 w2 :
  (forall x, length (sha256 x) = 32) ->
  knownsecret (self w) = true ->
  (1 <= isolated_check_bits (self w) <= 32)%Z ->
  (forall n, nextavailableshare (self w) = Some n -> (1 <= n)%Z) ->
  create_account username password shares w = (Ok tt, w1) ->
  knownsecret (self w2) = false ->
  isolated_check_bits (self w2) = isolated_check_bits (self w) ->
  accountdict (self w2) = accountdict (self w1) ->
  heap w2 = heap w1 ->
  is_valid_login username password w2 = (Ok (Some true), w2).
Proof.
  intros Hsha Hknown Hb Hnext Hrun Hlocked Hb2 Hacc Hheap.
  assert (exists r l' sn salt x,
    accountdict (self w1) !! username = Some (r :: l') /\
    heap w1 !! r =
      Some (Entry sn salt
              (x ++ create_isolated_validation_bits (self w) (sha256 (salt ++ password)))
              None) /\
    sn <> (-1)%Z) as (r & l' & sn & salt & x & Hl & Hr & Hsn).
  { revert Hrun. rewrite create_account_unfold.
    case_bool_decide; [done|].
    destruct (Z.gtb_spec shares 255); [done|].
    destruct (Z.ltb_spec shares 0); [done|]. cbn [orb].
    destruct (nextavailableshare (self w)) as [n|] eqn:Hn; [|done].
    specialize (Hnext n eq_refl).
    destruct (shares + n >? 255)%Z; [done|].
    cbv zeta. rewrite Hknown. cbn [negb].
    destruct (Z.eqb_spec shares 0) as [->|Hz].
    - destruct (shieldedkey (self w)) as [key|]; [|done]. intros [= <-].
      eexists _, [], 0%Z, _, _. fields. split; [apply lookup_insert_eq|].
      split; [by apply list_lookup_middle | done].
    - rewrite range_cons by lia.
      destruct (create_shares _ _ _ _) as [[[]|e] w3] eqn:Hloop; [|done].
      intros [= <-]. fields.
      eapply create_shares_head in Hloop; [|apply lookup_insert_eq].
      destruct Hloop as (rs & salt & _ & _ & (l' & Hl') & Hentry & _).
      fields_in Hl' Hentry.
      eexists _, l', n, salt, _. split; [exact Hl'|].
      split; [|lia].
      rewrite Hentry. do 2 f_equal. }
  rewrite is_valid_login_unfold, Hlocked, Hacc, Hl.
  destruct (Z.eqb_spec (isolated_check_bits (self w2)) 0) as [?|_]; [lia|].
  cbn [negb andb]. rewrite login_entries_cons, Hheap, Hr. cbv zeta. fields.
  rewrite (proj2 (Z.eqb_neq _ _) Hsn), Hlocked. cbn [negb].
  unfold isolated_validation.
  rewrite (create_isolated_validation_bits_ext (self w2) (self w)) by done.
  rewrite Hb2, slice_from_app_suffix
    by (apply create_isolated_validation_bits_length; [done | lia]).
  unfold bytes_eqb. by rewrite bool_decide_eq_true_2.
Qed.

(** X20: [unlock_password_data] unlocks only with a verified secret.  When
    it succeeds, the share object has recovered a secret from the shares
    collected from the submitted logins, that secret matches the
    integrity fingerprint of the store, and it is the key installed; the
    entries that are not on the bootstrap ledger are left as they
    were. *)
Theorem unlock_password_data_installs_verified_key logindata w w' :
  valid_refs (heap w) (bootstrap_accounts (self w)) ->
  unlock_password_data logindata w = (Ok tt, w') ->
  exists rs sharelist rs',
    knownsecret (self w) = false /\
    reedsolomonobj (self w) = Some rs /\
    unlock_logins logindata [] w = (Ok sharelist, w) /\
    recover_secretdata rs sharelist = (Ok tt, rs') /\
    reedsolomonobj (self w') = Some rs' /\
    shieldedkey (self w') = Some (secretdata rs') /\
    verify_secret (self w') (secretdata rs') = true /\
    secret_integrity_check (self w') = secret_integrity_check (self w) /\
    (forall r e, r ∉ bootstrap_accounts (self w) ->
       heap w !! r = Some e -> heap w' !! r = Some e).
Proof.
  intros Hvalid. unfold unlock_password_data.
  unfold bind at 1, get_self.
  destruct (knownsecret (self w)) eqn:Hlocked; [done|].
  unfold bind at 1.
  destruct (unlock_logins logindata [] w) as [[sharelist|e1] w1] eqn:Hlogins;
    [|done].
  pose proof Hlogins as Hw. apply unlock_logins_Ok in Hw as (-> & _ & _).
  run_monad.
  destruct (reedsolomonobj (self w)) as [rs|] eqn:Hrs; [|done].
  destruct (recover_secretdata rs sharelist) as [[[]|e2] rs'] eqn:Hrec; [|done].
  fields. destruct (verify_secret _ _) eqn:Hver; fields; [|done].
  match goal with |- context [unlock_bootstrap ?l ?w] =>
    destruct (unlock_bootstrap_spec l w (secretdata rs'))
      as (w3 & Hrun & Hself & Hlen & Hheap) end.
  { done. }
  { done. }
  fields_in Hrun. rewrite Hrun. fields. intros [= <-].
  exists rs, sharelist, rs'. fields. rewrite Hself. fields.
  repeat split; try done.
  intros r e Hr He. rewrite (Hheap r e He).
  by rewrite bool_decide_eq_false_2.
Qed.

End Properties.

(** * The properties on concrete stores

    The stand-in primitives of [Sim] meet the assumptions made on the
    imported modules, and the stores of [Sim] exercise the theorems. *)

Lemma Sim_sha256_length x : length (Sim.sha256 x) = 32.
Proof.
  assert (forall y, length (Sim.stretch y) = 32) as Hstretch
    by (intros y; unfold Sim.stretch; by rewrite length_map).
  unfold Sim.sha256. destruct x as [|a [|c rest]]; [done | done |].
  destruct (Nat.eqb_spec (length rest) 30) as [Hlen|_]; [|done].
  cbn [length]. rewrite length_app, Hlen. done.
Qed.

Lemma Sim_AES_encrypt_length key x : length (Sim.AES_encrypt key x) = length x.
Proof. unfold Sim.AES_encrypt. apply length_imap. Qed.

Lemma Sim_share_valid rs x :
  Sim.is_valid_share rs (x, snd (Sim.compute_share rs x)) = true.
Proof. unfold Sim.is_valid_share. by apply bool_decide_eq_true_2. Qed.

Lemma unlock_keeps_bootstrap_passhash_witness :
  exists entry key,
    unlock_password_data Sim.logindata Sim.bootstrapping_world
      = (Ok tt, Sim.reunlocked_world) /\
    accountdict (self Sim.bootstrapping_world) !! "bootstrapper" = Some [6] /\
    heap Sim.bootstrapping_world !! 6 = Some entry /\
    sharenumber entry = (-1)%Z /\
    passhash entry = sha256 (salt entry ++ Sim.b "password") /\
    shieldedkey (self Sim.reunlocked_world) = Some key /\
    heap Sim.reunlocked_world !! 6 =
      Some (Entry 0 (salt entry) (passhash entry)
              (Some (AES_encrypt key (passhash entry)))) /\
    fst (is_valid_login "bootstrapper" (Sim.b "password") Sim.reunlocked_world)
      = Ok (Some false).
Proof.
  assert (unlock_password_data Sim.logindata Sim.bootstrapping_world
          = (Ok tt, Sim.reunlocked_world)) as Hrun
    by (vm_compute; reflexivity).
  assert (valid_refs (heap Sim.bootstrapping_world)
            (bootstrap_accounts (self Sim.bootstrapping_world))) as Hvalid
    by (vm_compute; repeat constructor).
  destruct (unlock_keeps_bootstrap_passhash Sim.logindata
              Sim.bootstrapping_world Sim.reunlocked_world eq_refl Hvalid Hrun)
    as (key & Hkey & _ & _ & _ & Hheap).
  eexists _, key. split; [exact Hrun|].
  split; [vm_compute; reflexivity|].
  split; [vm_compute; reflexivity|].
  split; [reflexivity|]. split; [vm_compute; reflexivity|].
  split; [exact Hkey|]. split; [|vm_compute; reflexivity].
  apply Hheap; [|reflexivity]. vm_compute. apply list_elem_of_here.
Defined.

Lemma write_password_data_pickles_knownsecret_witness :
  knownsecret (self Sim.unlocked_world) = true /\
  exists data,
    files (snd (write_password_data "securepasswords" Sim.unlocked_world))
      !! "securepasswords" = Some (data, heap Sim.unlocked_world) /\
    knownsecret data = true /\
    shieldedkey data = None /\
    reedsolomonobj data = None.
Proof.
  destruct (write_password_data_pickles_knownsecret "securepasswords"
              Sim.unlocked_world 6 eq_refl eq_refl)
    as (_ & data & Hfile & Hknown & Hkey & Hrs & _).
  split; [reflexivity|]. exists data. rewrite Hknown.
  split; [exact Hfile|]. split; [reflexivity|]. split; [exact Hkey | exact Hrs].
Defined.

Lemma unlock_entries_takes_bootstrap_share_witness :
  accountdict (self Sim.bootstrapping_world) !! "bootstrapper" = Some [6] /\
  heap Sim.bootstrapping_world !! 6 = Some Sim.bootstrap_entry /\
  sharenumber Sim.bootstrap_entry = (-1)%Z /\
  unlock_entries (Sim.b "password") [6] [] Sim.bootstrapping_world
    = (Ok [((-1)%Z, replicate 32 0%Z)], Sim.bootstrapping_world) /\
  candidate_share (self Sim.bootstrapping_world) Sim.bootstrap_entry
    (Sim.b "password") ∈ [((-1)%Z, replicate 32 0%Z)].
Proof.
  assert (unlock_entries (Sim.b "password") [6] [] Sim.bootstrapping_world
          = (Ok [((-1)%Z, replicate 32 0%Z)], Sim.bootstrapping_world)) as Hrun
    by (vm_compute; reflexivity).
  assert (heap Sim.bootstrapping_world !! 6 = Some Sim.bootstrap_entry) as Hentry
    by (vm_compute; reflexivity).
  split; [vm_compute; reflexivity|]. split; [exact Hentry|].
  split; [reflexivity|]. split; [exact Hrun|].
  apply (unlock_entries_takes_bootstrap_share (Sim.b "password") [6] []
           Sim.bootstrapping_world _ Sim.bootstrapping_world 6
           Sim.bootstrap_entry Hrun (list_elem_of_here _ _) Hentry eq_refl).
Defined.

Lemma new_from_file_doubles_max_witness :
  exists data h,
    Sim.disk !! "securepasswords" = Some (data, h) /\
    new 0 3 (Some "securepasswords") 0 [] 0 Sim.disk
      = Some (Ok tt, Sim.locked_world) /\
    map sharenumber h = [1; 2; 3; 4; 5; 0]%Z /\
    nextavailableshare (self Sim.locked_world) = Some 10%Z /\
    exists m,
      m ∈ all_sharenumbers (accountdict data) h /\
      Forall (fun x => (x <= m)%Z) (all_sharenumbers (accountdict data) h) /\
      nextavailableshare (self Sim.locked_world) = Some (2 * m)%Z.
Proof.
  destruct (Sim.disk !! "securepasswords") as [[data h]|] eqn:Hfile;
    [|vm_compute in Hfile; discriminate].
  assert (new 0 3 (Some "securepasswords") 0 [] 0 Sim.disk
          = Some (Ok tt, Sim.locked_world)) as Hnew
    by (vm_compute; reflexivity).
  exists data, h. split; [reflexivity|]. split; [exact Hnew|].
  split; [vm_compute in Hfile; injection Hfile as _ <-; reflexivity|].
  split; [reflexivity|].
  apply (new_from_file_doubles_max 0 3 "securepasswords" 0 [] 0 Sim.disk
           data h Sim.locked_world Hfile Hnew).
Defined.

Lemma create_account_then_login_witness :
  (exists w',
     create_account "moe" (Sim.b "tadpole") 1 Sim.unlocked_world = (Ok tt, w') /\
     is_valid_login "moe" (Sim.b "tadpole") w' = (Ok (Some true), w')) /\
  (exists w',
     create_account "larry" (Sim.b "fish") 0 Sim.unlocked_world = (Ok tt, w') /\
     is_valid_login "larry" (Sim.b "fish") w' = (Ok (Some true), w')) /\
  (exists w',
     create_account "root" (Sim.b "battery staple") 3 Sim.unlocked_world
       = (Ok tt, w') /\
     is_valid_login "root" (Sim.b "battery staple") w' = (Ok (Some true), w')).
Proof.
  assert (0 <= isolated_check_bits (self Sim.unlocked_world) <= 32)%Z as Hb
    by (vm_compute; split; discriminate).
  assert (forall n, nextavailableshare (self Sim.unlocked_world) = Some n ->
                    (1 <= n)%Z) as Hnext
    by (intros n Hn; vm_compute in Hn; injection Hn as <-; discriminate).
  repeat split.
  - destruct (create_account "moe" (Sim.b "tadpole") 1 Sim.unlocked_world)
      as [[[]|e] w'] eqn:Hrun; [|vm_compute in Hrun; discriminate].
    exists w'. split; [reflexivity|].
    exact (create_account_then_login "moe" (Sim.b "tadpole") 1
             Sim.unlocked_world w' Sim_sha256_length Sim_AES_encrypt_length
             (fun rs x _ => Sim_share_valid rs x) eq_refl Hb Hnext Hrun).
  - destruct (create_account "larry" (Sim.b "fish") 0 Sim.unlocked_world)
      as [[[]|e] w'] eqn:Hrun; [|vm_compute in Hrun; discriminate].
    exists w'. split; [reflexivity|].
    exact (create_account_then_login "larry" (Sim.b "fish") 0
             Sim.unlocked_world w' Sim_sha256_length Sim_AES_encrypt_length
             (fun rs x _ => Sim_share_valid rs x) eq_refl Hb Hnext Hrun).
  - destruct (create_account "root" (Sim.b "battery staple") 3 Sim.unlocked_world)
      as [[[]|e] w'] eqn:Hrun; [|vm_compute in Hrun; discriminate].
    exists w'. split; [reflexivity|].
    exact (create_account_then_login "root" (Sim.b "battery staple") 3
             Sim.unlocked_world w' Sim_sha256_length Sim_AES_encrypt_length
             (fun rs x _ => Sim_share_valid rs x) eq_refl Hb Hnext Hrun).
Defined.

Lemma is_valid_login_outcomes_counterexample :
  accountdict (self Sim.locked_world) !! "zed" = None /\
  fst (is_valid_login "zed" (Sim.b "zebra") Sim.locked_world)
    = Raise StillBootstrapping /\
  fst (is_valid_login "zed" (Sim.b "zebra") Sim.locked_world)
    <> Raise (UnknownUser "zed") /\
  knownsecret (self Sim.icb_reunlocked_world) = true /\
  accountdict (self Sim.icb_reunlocked_world) !! "bootstrapper" = Some [3] /\
  fst (is_valid_login "bootstrapper" (Sim.b "password") Sim.icb_reunlocked_world)
    = Raise AssertionError.
Proof.
  split; [vm_compute; reflexivity|]. split; [vm_compute; reflexivity|].
  split; [vm_compute; discriminate|]. split; [reflexivity|].
  split; vm_compute; reflexivity.
Qed.

Lemma is_valid_login_outcomes_witness :
  let r := fst (is_valid_login "admin" (Sim.b "correct horse")
                  Sim.icb_locked_world) in
  let bootstrapping :=
    knownsecret (self Sim.icb_locked_world) = false /\
    isolated_check_bits (self Sim.icb_locked_world) = 0%Z in
  r = Ok (Some true) /\
  (r = Raise StillBootstrapping <-> bootstrapping) /\
  (r = Raise (UnknownUser "admin") <->
     ~ bootstrapping /\ accountdict (self Sim.icb_locked_world) !! "admin" = None) /\
  ((exists verdict : bool, r = Ok (Some verdict)) <->
     ~ bootstrapping /\
     exists first rest,
       accountdict (self Sim.icb_locked_world) !! "admin" = Some (first :: rest) /\
       entry_ready (self Sim.icb_locked_world) (heap Sim.icb_locked_world) first) /\
  (r = Ok None <->
     ~ bootstrapping /\ accountdict (self Sim.icb_locked_world) !! "admin" = Some []).
Proof.
  split; [vm_compute; reflexivity|].
  exact (is_valid_login_outcomes "admin" (Sim.b "correct horse")
           Sim.icb_locked_world Sim_sha256_length).
Defined.

Lemma create_isolated_validation_bits_999_witness :
  let s := self Sim.icb_unlocked_world in
  let h := sha256 (Sim.b "0123456789abcdef" ++ Sim.b "kitten") in
  isolated_check_bits s = 1%Z /\
  create_isolated_validation_bits s h = drop 31 (Z.iter 999 sha256 h) /\
  create_isolated_validation_bits s h <> drop 31 (Z.iter 1000 sha256 h).
Proof.
  intros s h. split; [reflexivity|]. split.
  - apply (create_isolated_validation_bits_999 s h Sim_sha256_length).
    vm_compute. split; discriminate.
  - vm_compute. discriminate.
Defined.

Lemma unlock_failure_keeps_store_locked_witness :
  exists e w',
    unlock_password_data Sim.wrong_logindata Sim.bootstrapping_world
      = (Raise e, w') /\
    knownsecret (self w') = false /\
    shieldedkey (self w') = None /\
    accountdict (self w') = accountdict (self Sim.bootstrapping_world) /\
    heap w' = heap Sim.bootstrapping_world /\
    bootstrap_accounts (self w')
      = bootstrap_accounts (self Sim.bootstrapping_world).
Proof.
  assert (valid_refs (heap Sim.bootstrapping_world)
            (bootstrap_accounts (self Sim.bootstrapping_world))) as Hvalid
    by (vm_compute; repeat constructor).
  destruct (unlock_password_data Sim.wrong_logindata Sim.bootstrapping_world)
    as [[[]|e] w'] eqn:Hrun; [vm_compute in Hrun; discriminate|].
  exists e, w'. split; [reflexivity|].
  exact (unlock_failure_keeps_store_locked Sim.wrong_logindata
           Sim.bootstrapping_world e w' eq_refl eq_refl Hvalid Hrun).
Defined.

Lemma is_valid_login_first_share_decides_witness :
  exists rs e0 e1,
    knownsecret (self Sim.tampered_world) = true /\
    reedsolomonobj (self Sim.tampered_world) = Some rs /\
    accountdict (self Sim.tampered_world) !! "admin" = Some [0; 1] /\
    heap Sim.tampered_world !! 0 = Some e0 /\
    heap Sim.tampered_world !! 1 = Some e1 /\
    entry_validates (self Sim.tampered_world) e0 (Sim.b "correct horse") = false /\
    entry_validates (self Sim.tampered_world) e1 (Sim.b "correct horse") = true /\
    fst (is_valid_login "admin" (Sim.b "correct horse") Sim.tampered_world)
      = Ok (Some false).
Proof.
  destruct (reedsolomonobj (self Sim.tampered_world)) as [rs|] eqn:Hrs;
    [|vm_compute in Hrs; discriminate].
  destruct (heap Sim.tampered_world !! 0) as [e0|] eqn:H0;
    [|vm_compute in H0; discriminate].
  destruct (heap Sim.tampered_world !! 1) as [e1|] eqn:H1;
    [|vm_compute in H1; discriminate].
  assert (accountdict (self Sim.tampered_world) !! "admin" = Some [0; 1])
    as Hlookup by (vm_compute; reflexivity).
  assert (share_fails (self Sim.tampered_world) rs (heap Sim.tampered_world)
            (Sim.b "correct horse") 0) as Hfail.
  { exists e0. split; [exact H0|].
    vm_compute in H0. injection H0 as <-.
    vm_compute in Hrs. injection Hrs as <-.
    split; [vm_compute; discriminate|]. split; [vm_compute; discriminate|].
    split; vm_compute; reflexivity. }
  exists rs, e0, e1. split; [reflexivity|]. split; [reflexivity|].
  split; [exact Hlookup|]. split; [reflexivity|]. split; [reflexivity|].
  split; [|split].
  - vm_compute in H0. injection H0 as <-. vm_compute. reflexivity.
  - vm_compute in H1. injection H1 as <-. vm_compute. reflexivity.
  - exact (is_valid_login_first_share_decides "admin" (Sim.b "correct horse")
             Sim.tampered_world rs 0 [1] eq_refl Hrs Hlookup Hfail).
Defined.

(** ** The further properties on concrete stores *)

Lemma create_account_ValueError_iff_witness :
  knownsecret (self Sim.locked_world) = false /\
  exists msg,
    fst (create_account "moe" (Sim.b "tadpole") 1 Sim.locked_world)
      = Raise (ValueError msg).
Proof.
  split; [reflexivity|].
  apply (proj2 (create_account_ValueError_iff "moe" (Sim.b "tadpole") 1
                  Sim.locked_world 10 eq_refl)).
  right. right. right. right. split; [reflexivity | discriminate].
Defined.

Lemma create_account_ValueError_restores_store_witness :
  exists msg,
    create_account "moe" (Sim.b "tadpole") 1 Sim.locked_world
      = (Raise (ValueError msg), Sim.locked_world).
Proof.
  destruct (create_account "moe" (Sim.b "tadpole") 1 Sim.locked_world)
    as [[[]|[msg| | | | | | |]] w'] eqn:Hrun;
    try (vm_compute in Hrun; discriminate).
  exists msg. f_equal.
  exact (create_account_ValueError_restores_store "moe" (Sim.b "tadpole") 1
           Sim.locked_world msg w' Hrun).
Defined.

Lemma create_account_bootstrap_login_witness :
  exists w',
    create_account "bootstrapper" (Sim.b "password") 0 Sim.icb_locked_world
      = (Ok tt, w') /\
    map sharenumber (heap w') = [1; 2; 3; -1]%Z /\
    bootstrap_accounts (self w') = [3] /\
    accountdict (self w') !! "bootstrapper" = Some [3] /\
    is_valid_login "bootstrapper" (Sim.b "password") w' = (Ok (Some true), w') /\
    fst (is_valid_login "bootstrapper" (Sim.b "nopassword") w') = Ok (Some false).
Proof.
  destruct (create_account "bootstrapper" (Sim.b "password") 0 Sim.icb_locked_world)
    as [[[]|e] w'] eqn:Hrun; [|vm_compute in Hrun; discriminate].
  destruct (create_account_bootstrap_login "bootstrapper" (Sim.b "password")
              Sim.icb_locked_world w' eq_refl ltac:(discriminate) Hrun)
    as (Hheap & Hacc & Hboot & _ & Hany & Hlogin).
  exists w'. split; [reflexivity|].
  split; [rewrite Hheap; vm_compute; reflexivity|].
  split; [rewrite Hboot; vm_compute; reflexivity|].
  split; [exact Hacc|]. split; [exact Hlogin|].
  rewrite Hany. vm_compute. reflexivity.
Defined.

Lemma create_account_allocates_consecutive_shares_witness :
  exists w',
    create_account "root" (Sim.b "battery staple") 3 Sim.unlocked_world
      = (Ok tt, w') /\
    map sharenumber (heap w') = [1; 2; 3; 4; 5; 0; 6; 7; 8]%Z /\
    accountdict (self w') !! "root" = Some [6; 7; 8] /\
    nextavailableshare (self w') = Some 9%Z.
Proof.
  destruct (reedsolomonobj (self Sim.unlocked_world)) as [rs|] eqn:Hrs;
    [|vm_compute in Hrs; discriminate].
  assert (forall x, length (snd (compute_share rs x)) = 32) as Hshare.
  { vm_compute in Hrs. injection Hrs as <-. intros x.
    cbn [compute_share Sim.primitives Sim.compute_share snd].
    rewrite length_map. reflexivity. }
  destruct (create_account_allocates_consecutive_shares "root"
              (Sim.b "battery staple") 3 Sim.unlocked_world 6 rs
              Sim_sha256_length Hshare eq_refl Hrs eq_refl eq_refl
              ltac:(lia) ltac:(lia))
    as (w' & Hrun & Hmap & Hacc & Hnext).
  exists w'. split; [exact Hrun|]. split; [exact Hmap|].
  split; [exact Hacc | exact Hnext].
Defined.


Lemma create_account_keeps_other_accounts_witness :
  exists w',
    create_account "moe" (Sim.b "tadpole") 1 Sim.unlocked_world = (Ok tt, w') /\
    accountdict (self w') !! "alice" = Some [0] /\
    fst (is_valid_login "alice" (Sim.b "kitten") w') = Ok (Some true) /\
    fst (is_valid_login "alice" (Sim.b "nyancat!") w') = Ok (Some false).
Proof.
  destruct (create_account "moe" (Sim.b "tadpole") 1 Sim.unlocked_world)
    as [[[]|e] w'] eqn:Hrun; [|vm_compute in Hrun; discriminate].
  assert (accountdict (self Sim.unlocked_world) !! "alice" = Some [0]) as Hl
    by (vm_compute; reflexivity).
  assert (valid_refs (heap Sim.unlocked_world) [0]) as Hvalid
    by (vm_compute; repeat constructor).
  exists w'. split; [reflexivity|].
  destruct (create_account_keeps_other_accounts "moe" (Sim.b "tadpole") 1
              Sim.unlocked_world w' "alice" (Sim.b "kitten") [0] Hrun
              ltac:(discriminate) Hl Hvalid) as (Hacc & _ & Hright).
  destruct (create_account_keeps_other_accounts "moe" (Sim.b "tadpole") 1
              Sim.unlocked_world w' "alice" (Sim.b "nyancat!") [0] Hrun
              ltac:(discriminate) Hl Hvalid) as (_ & _ & Hwrong).
  split; [exact Hacc|]. rewrite Hright, Hwrong.
  split; vm_compute; reflexivity.
Defined.

Lemma create_account_keeps_share_numbers_fresh_witness :
  share_numbers_fresh Sim.unlocked_world /\
  exists w',
    create_account "root" (Sim.b "battery staple") 3 Sim.unlocked_world
      = (Ok tt, w') /\
    share_numbers_fresh w'.
Proof.
  assert (share_numbers_fresh Sim.unlocked_world) as Hfresh.
  { exists 6%Z. split; [reflexivity|]. split; [lia|]. split.
    - vm_compute. repeat constructor.
    - apply (bool_decide_unpack _). vm_compute. exact I. }
  split; [exact Hfresh|].
  destruct (create_account "root" (Sim.b "battery staple") 3 Sim.unlocked_world)
    as [[[]|e] w'] eqn:Hrun; [|vm_compute in Hrun; discriminate].
  exists w'. split; [reflexivity|].
  exact (create_account_keeps_share_numbers_fresh "root"
           (Sim.b "battery staple") 3 Sim.unlocked_world w' Hfresh Hrun).
Defined.


Lemma write_password_data_keeps_store_live_witness :
  exists w',
    write_password_data "securepasswords" Sim.unlocked_world = (Ok tt, w') /\
    knownsecret (self w') = true /\
    shieldedkey (self w') = shieldedkey (self Sim.unlocked_world) /\
    reedsolomonobj (self w') = reedsolomonobj (self Sim.unlocked_world) /\
    fst (is_valid_login "alice" (Sim.b "kitten") w') = Ok (Some true) /\
    fst (is_valid_login "dennis" (Sim.b "password") w') = Ok (Some false).
Proof.
  destruct (write_password_data "securepasswords" Sim.unlocked_world)
    as [[[]|e] w'] eqn:Hrun; [|vm_compute in Hrun; discriminate].
  destruct (write_password_data_keeps_store_live "securepasswords"
              Sim.unlocked_world w' Hrun)
    as (Hknown & Hkey & Hrs & _ & _ & _ & _ & _ & _ & Hlogin).
  exists w'. split; [reflexivity|]. split; [exact Hknown|].
  split; [exact Hkey|]. split; [exact Hrs|]. rewrite !Hlogin.
  split; vm_compute; reflexivity.
Defined.

Lemma write_then_load_round_trip_witness :
  exists w1 w2,
    write_password_data "securepasswords" Sim.unlocked_world = (Ok tt, w1) /\
    new 0 3 (Some "securepasswords") 0 [] 0 (files w1) = Some (Ok tt, w2) /\
    accountdict (self w2) = accountdict (self Sim.unlocked_world) /\
    heap w2 = heap Sim.unlocked_world /\
    secret_integrity_check (self w2)
      = secret_integrity_check (self Sim.unlocked_world) /\
    knownsecret (self w2) = false /\
    shieldedkey (self w2) = None /\
    bootstrap_accounts (self w2) = [].
Proof.
  destruct (write_password_data "securepasswords" Sim.unlocked_world)
    as [[[]|e] w1] eqn:Hrun; [|vm_compute in Hrun; discriminate].
  assert (map_Forall (fun _ l => valid_refs (heap Sim.unlocked_world) l)
            (accountdict (self Sim.unlocked_world))) as Hvalid.
  { unfold valid_refs. apply (bool_decide_unpack _). vm_compute. exact I. }
  assert (all_sharenumbers (accountdict (self Sim.unlocked_world))
            (heap Sim.unlocked_world) <> []) as Hne
    by (vm_compute; discriminate).
  destruct (write_then_load_round_trip "securepasswords" Sim.unlocked_world w1
              0 3 0 [] 0 (Sim.RS 3 []) Hrun eq_refl Hvalid Hne)
    as (w2 & Hload & Hacc & Hheap & Hsic & Hknown & Hkey & Hboot & _).
  exists w1, w2. split; [reflexivity|]. split; [exact Hload|].
  split; [exact Hacc|]. split; [exact Hheap|]. split; [exact Hsic|].
  split; [exact Hknown|]. split; [exact Hkey | exact Hboot].
Defined.

Lemma new_from_file_without_entries_witness :
  exists data w',
    Sim.empty_disk !! "empty" = Some (data, []) /\
    accountdict data = ∅ /\
    new 0 0 (Some "empty") 0 [] 0 Sim.empty_disk = Some (Raise TypeError, w').
Proof.
  destruct (Sim.empty_disk !! "empty") as [[data h]|] eqn:Hfile;
    [|vm_compute in Hfile; discriminate].
  assert (h = [] /\ accountdict data = ∅) as [-> Hacc].
  { vm_compute in Hfile. injection Hfile as <- <-. split; reflexivity. }
  destruct (new_from_file_without_entries 0 0 "empty" 0 [] 0 Sim.empty_disk
              data [] (Sim.RS 0 []) Hfile eq_refl) as (w' & Hrun).
  { rewrite Hacc. apply map_Forall_empty. }
  exists data, w'. split; [reflexivity|]. split; [exact Hacc | exact Hrun].
Defined.

Lemma do_bytearray_XOR_round_trip_witness :
  (exists x,
     _do_bytearray_XOR [1; 2; 3]%Z [7; 7; 7]%Z Sim.unlocked_world
       = (Ok x, Sim.unlocked_world) /\
     len x = 3%Z /\
     _do_bytearray_XOR [1; 2; 3]%Z x Sim.unlocked_world
       = (Ok [7; 7; 7]%Z, Sim.unlocked_world)) /\
  fst (_do_bytearray_XOR [1; 2; 3]%Z [7; 7]%Z Sim.unlocked_world)
    = Raise AssertionError.
Proof.
  split.
  - exact (proj1 (do_bytearray_XOR_round_trip [1; 2; 3]%Z [7; 7; 7]%Z
                    Sim.unlocked_world) eq_refl).
  - rewrite (proj2 (do_bytearray_XOR_round_trip [1; 2; 3]%Z [7; 7]%Z
                      Sim.unlocked_world)) by discriminate.
    reflexivity.
Defined.

Lemma new_store_retries_until_share_object_witness :
  @ReedSolomon_new Sim.picky 3 (Some (os_urandom 0 secret_length))
    = Raise TypeError /\
  exists w',
    @new Sim.picky 2 3 None 0 [] 0 ∅ = Some (Ok tt, w') /\
    shieldedkey (self w') = Some (os_urandom 1 secret_length) /\
    @verify_secret Sim.picky (self w') (os_urandom 1 secret_length) = true /\
    knownsecret (self w') = true /\
    nextavailableshare (self w') = Some 1%Z /\
    urandom_calls w' = 2.
Proof.
  split; [reflexivity|].
  destruct (@new_store_retries_until_share_object Sim.picky 2 3 0 [] 0 ∅ 1
              (Sim.RS 3 (os_urandom 1 secret_length)))
    as (w' & Hrun & Hkey & Hverify & _ & Hknown & Hnext & _ & _ & _ & _ & _
        & Hcalls & _).
  - intros i Hi. destruct i as [|i]; [reflexivity | lia].
  - reflexivity.
  - lia.
  - exists w'. split; [exact Hrun|]. split; [exact Hkey|].
    split; [exact Hverify|]. split; [exact Hknown|].
    split; [exact Hnext | exact Hcalls].
Defined.

Lemma is_valid_login_prints_only_on_failure_witness :
  (let r := is_valid_login "admin" (Sim.b "correct horse") Sim.icb_unlocked_world in
   fst r = Ok (Some true) /\ snd r = Sim.icb_unlocked_world) /\
  (let r := is_valid_login "admin" Sim.false_alarm Sim.icb_unlocked_world in
   fst r = Ok (Some false) /\
   stdout (snd r) = stdout Sim.icb_unlocked_world ++ [break_in]).
Proof.
  split.
  - assert (fst (is_valid_login "admin" (Sim.b "correct horse")
                   Sim.icb_unlocked_world) = Ok (Some true)) as Hok
      by (vm_compute; reflexivity).
    split; [exact Hok|].
    exact (proj1 (is_valid_login_prints_only_on_failure "admin"
                    (Sim.b "correct horse") Sim.icb_unlocked_world) Hok).
  - assert (fst (is_valid_login "admin" Sim.false_alarm Sim.icb_unlocked_world)
            = Ok (Some false)) as Hno by (vm_compute; reflexivity).
    split; [exact Hno|].
    destruct (proj2 (is_valid_login_prints_only_on_failure "admin"
                       Sim.false_alarm Sim.icb_unlocked_world) Hno)
      as [Hsame|(_ & _ & ->)]; [|reflexivity].
    exfalso. apply (f_equal stdout) in Hsame. vm_compute in Hsame. discriminate.
Defined.

Lemma unlock_password_data_only_once_witness :
  knownsecret (self Sim.reunlocked_world) = true /\
  unlock_password_data Sim.wrong_logindata Sim.reunlocked_world =
    (Raise (ValueError "PPH is already in normal operation!"),
     Sim.reunlocked_world).
Proof.
  assert (unlock_password_data Sim.logindata Sim.bootstrapping_world
          = (Ok tt, Sim.reunlocked_world)) as Hrun
    by (vm_compute; reflexivity).
  exact (unlock_password_data_only_once Sim.logindata Sim.wrong_logindata
           Sim.bootstrapping_world Sim.reunlocked_world Hrun).
Defined.

Lemma unlock_logins_share_list_witness :
  exists sharelist,
    unlock_logins Sim.shielded_first_logindata [] Sim.locked_world
      = (Ok sharelist, Sim.locked_world) /\
    map sharenumber (heap Sim.locked_world) = [1; 2; 3; 4; 5; 0]%Z /\
    accountdict (self Sim.locked_world) !! "eve" = Some [5] /\
    map fst sharelist = [1; 2]%Z /\
    Forall (fun share => fst share <> 0%Z) sharelist.
Proof.
  destruct (unlock_logins Sim.shielded_first_logindata [] Sim.locked_world)
    as [[sharelist|e] w'] eqn:Hrun; [|vm_compute in Hrun; discriminate].
  destruct (unlock_logins_share_list Sim.shielded_first_logindata
              Sim.locked_world sharelist w' Hrun) as (-> & Hlist & Hnz & _).
  exists sharelist. split; [reflexivity|].
  split; [vm_compute; reflexivity|]. split; [vm_compute; reflexivity|].
  split; [|exact Hnz]. rewrite Hlist. vm_compute. reflexivity.
Defined.

Lemma isolated_validation_disabled_accepts_witness :
  isolated_check_bits (self Sim.locked_world) = 0%Z /\
  isolated_validation (self Sim.locked_world)
    (sha256 (Sim.b "nyancat!")) (sha256 (Sim.b "kitten")) = true.
Proof.
  split; [reflexivity|].
  exact (isolated_validation_disabled_accepts (self Sim.locked_world)
           (sha256 (Sim.b "nyancat!")) (sha256 (Sim.b "kitten")) eq_refl).
Defined.

Lemma created_account_passes_isolated_validation_witness :
  create_account "alice" (Sim.b "kitten") 1 Sim.icb_admin_world
    = (Ok tt, Sim.icb_unlocked_world) /\
  fst (write_password_data "securepasswords" Sim.icb_unlocked_world) = Ok tt /\
  new 0 2 (Some "securepasswords") 1 [] 0
    (files (snd (write_password_data "securepasswords" Sim.icb_unlocked_world)))
    = Some (Ok tt, Sim.icb_locked_world) /\
  knownsecret (self Sim.icb_locked_world) = false /\
  is_valid_login "alice" (Sim.b "kitten") Sim.icb_locked_world
    = (Ok (Some true), Sim.icb_locked_world).
Proof.
  assert (create_account "alice" (Sim.b "kitten") 1 Sim.icb_admin_world
          = (Ok tt, Sim.icb_unlocked_world)) as Hrun
    by (vm_compute; reflexivity).
  split; [exact Hrun|]. split; [vm_compute; reflexivity|].
  split; [vm_compute; reflexivity|]. split; [reflexivity|].
  apply (created_account_passes_isolated_validation "alice" (Sim.b "kitten") 1
           Sim.icb_admin_world Sim.icb_unlocked_world Sim.icb_locked_world
           Sim_sha256_length eq_refl).
  - vm_compute. split; discriminate.
  - intros n Hn. vm_compute in Hn. injection Hn as <-. discriminate.
  - exact Hrun.
  - reflexivity.
  - reflexivity.
  - vm_compute. reflexivity.
  - vm_compute. reflexivity.
Defined.

Lemma unlock_password_data_installs_verified_key_witness :
  exists rs',
    unlock_password_data Sim.logindata Sim.bootstrapping_world
      = (Ok tt, Sim.reunlocked_world) /\
    reedsolomonobj (self Sim.reunlocked_world) = Some rs' /\
    shieldedkey (self Sim.reunlocked_world) = Some (secretdata rs') /\
    shieldedkey (self Sim.reunlocked_world) = shieldedkey (self Sim.unlocked_world) /\
    verify_secret (self Sim.reunlocked_world) (secretdata rs') = true /\
    heap Sim.reunlocked_world !! 0 = heap Sim.bootstrapping_world !! 0.
Proof.
  assert (unlock_password_data Sim.logindata Sim.bootstrapping_world
          = (Ok tt, Sim.reunlocked_world)) as Hrun
    by (vm_compute; reflexivity).
  assert (valid_refs (heap Sim.bootstrapping_world)
            (bootstrap_accounts (self Sim.bootstrapping_world))) as Hvalid
    by (vm_compute; repeat constructor).
  destruct (unlock_password_data_installs_verified_key Sim.logindata
              Sim.bootstrapping_world Sim.reunlocked_world Hvalid Hrun)
    as (rs & sharelist & rs' & _ & _ & _ & _ & Hrs & Hkey & Hver & _ & Hheap).
  exists rs'. split; [exact Hrun|]. split; [exact Hrs|]. split; [exact Hkey|].
  split; [vm_compute; reflexivity|]. split; [exact Hver|].
  destruct (heap Sim.bootstrapping_world !! 0) as [e|] eqn:He;
    [|vm_compute in He; discriminate].
  apply Hheap; [|exact He].
  vm_compute. intros Hin. apply list_elem_of_singleton in Hin. discriminate.
Defined.
